(** * ps2mqtt: the collection-and-publish core of [ps2mqtt/daemon.py]

    A shallow embedding of the daemon's rate store, metric registry,
    discovery record builder, connect callback and scheduler tick, followed
    by the properties established about them.

    Numbers.  A Python [float] is an IEEE binary64 value; it is represented
    here by the rational it denotes, and every operation that rounds in
    Python rounds here ([fsub], [int_truediv], [float_of_Decimal]) with 53
    significant bits, ties to even.  A [Decimal] under [getcontext().prec = 2]
    is a rational with two significant decimal digits.  Exponent ranges
    (overflow to infinity, Emax of the decimal context) are not modelled:
    the definitions agree with Python wherever the Python result is finite. *)

From Stdlib Require Import ZArith QArith Qabs Qround Qpower Lia Lqa String Ascii List.
From stdpp Require Import gmap strings list pretty.

#[local] Set Warnings "-register-all".
Local Open Scope Z_scope.

(** ** Correctly rounded arithmetic *)

Module Round.

(** Nearest integer to [n / d] for [0 <= n] and [0 < d], ties to even. *)
Definition round_half_even (n d : Z) : Z :=
  let q := n / d in
  match 2 * (n mod d) ?= d with
  | Lt => q
  | Gt => q + 1
  | Eq => if Z.even q then q else q + 1
  end.

Fixpoint digits_aux (beta : Z) (fuel : nat) (n : Z) : Z :=
  match fuel with
  | O => 0
  | S f => if n <? beta then 1 else 1 + digits_aux beta f (n / beta)
  end.

(** Number of radix-[beta] digits of [n > 0] (Python: [len(str(n))]). *)
Definition digits (beta n : Z) : Z :=
  digits_aux beta (S (Z.to_nat (Z.log2 n))) n.

(** [scale beta n d e = (N, D)] with [N / D = (n / d) / beta ^ e]. *)
Definition scale (beta n d e : Z) : Z * Z :=
  (n * beta ^ Z.max 0 (- e), d * beta ^ Z.max 0 e).

(** The exponent [e] for which [n / d] has exactly [prec] digits before
    the point when written in units of [beta ^ e]. *)
Definition exponent (beta prec n d : Z) : Z :=
  let e1 := digits beta n - digits beta d - prec + 1 in
  let '(N, D) := scale beta n d e1 in
  if beta ^ (prec - 1) * D <=? N then e1 else e1 - 1.

(** [n / d] (both positive) rounded to [prec] significant digits:
    significand and exponent. *)
Definition round_pos (beta prec n d : Z) : Z * Z :=
  let e := exponent beta prec n d in
  let '(N, D) := scale beta n d e in
  (round_half_even N D, e).

(** The rational [m * beta ^ e]. *)
Definition fp_value (beta m e : Z) : Q :=
  if 0 <=? e then inject_Z (m * beta ^ e)
  else Qred (Qmake m (Z.to_pos (beta ^ (- e)))).

(** [q] rounded to [prec] significant radix-[beta] digits, ties to even,
    as significand and exponent. *)
Definition round_sig_repr (beta prec : Z) (q : Q) : Z * Z :=
  match Qnum q with
  | Z0 => (0, 0)
  | Zpos n => round_pos beta prec (Zpos n) (Zpos (Qden q))
  | Zneg n =>
      let '(m, e) := round_pos beta prec (Zpos n) (Zpos (Qden q)) in
      (- m, e)
  end.

Definition round_sig (beta prec : Z) (q : Q) : Q :=
  let '(m, e) := round_sig_repr beta prec q in fp_value beta m e.

(** The rational [beta ^ e], for an exponent of either sign. *)
Definition bpow (beta e : Z) : Q := (inject_Z beta ^ e)%Q.

(** What "[r] is [q] rounded to [prec] significant digits" means: [e] is
    the weight of the last of the [prec] leading digits of [q], [r] is a
    multiple [m] of [beta ^ e] at most half a unit away from [q], and in a
    tie [m] is even. *)
Definition rounded_to (beta prec : Z) (q r : Q) : Prop :=
  (q == 0 /\ r == 0)%Q \/
  exists m e : Z,
    beta ^ (prec - 1) <= Z.abs m <= beta ^ prec /\
    (r == inject_Z m * bpow beta e)%Q /\
    (inject_Z (beta ^ (prec - 1)) * bpow beta e <= Qabs q)%Q /\
    (Qabs q < inject_Z (beta ^ prec) * bpow beta e)%Q /\
    (Qabs (q - r) * 2 <= bpow beta e)%Q /\
    ((Qabs (q - r) * 2 == bpow beta e)%Q -> Z.even m = true).

End Round.

(** ** Python values, exceptions and numbers *)

Inductive exn : Type :=
  | DivisionByZero          (* decimal.DivisionByZero *)
  | InvalidOperation        (* decimal.InvalidOperation, raised for 0 / 0 *)
  | KeyError (k : string)
  | IndexError
  | NameError (v : string).

Inductive result (A : Type) : Type :=
  | Ok (a : A)
  | Raise (e : exn).
Arguments Ok {A} a.
Arguments Raise {A} e.

(** JSON documents as [json.dumps] receives them: strings and objects whose
    members keep their insertion order. *)
Inductive Json : Type :=
  | JStr (s : string)
  | JObj (members : list (string * Json)).

(** What a sampling function returns and what [publish] is given.
    [VJsonText j] is the [str] returned by [json.dumps(j)]. *)
Inductive Value : Type :=
  | VInt (z : Z)
  | VFloat (x : Q)
  | VStr (s : string)
  | VJsonText (j : Json).

Module Float.

(** Round to the nearest binary64 value, ties to even. *)
Definition rn (q : Q) : Q := Round.round_sig 2 53 q.

(** [a - b] on floats. *)
Definition sub (a b : Q) : Q := rn (a - b).

(** [n / d] on ints (true division), [d <> 0]: the quotient of the exact
    integers, correctly rounded. *)
Definition int_truediv (n d : Z) : Q := rn (inject_Z n / inject_Z d).

(** [int(x)]: truncation toward zero. *)
Definition to_int (x : Q) : Z := Z.quot (Qnum x) (Zpos (Qden x)).

End Float.

Module Decimal.

(** [getcontext().prec = 2] (daemon.py, line 22); rounding stays at the
    context default ROUND_HALF_EVEN. *)
Definition prec : Z := 2.

(** [Decimal(x)] for a float [x] is exact and ignores the context. *)
Definition of_float (x : Q) : Q := x.

(** [a / b] in the context: DivisionByZero and InvalidOperation are
    trapped by default. *)
Definition div (a b : Q) : result Q :=
  if Qeq_bool b 0 then
    if Qeq_bool a 0 then Raise InvalidOperation else Raise DivisionByZero
  else Ok (Round.round_sig 10 prec (a / b)).

(** [float(d)]. *)
Definition to_float (d : Q) : Q := Float.rn d.

End Decimal.

(** ** Insertion-ordered dictionaries with string keys *)

Module Dict.

Definition t (V : Type) : Type := list (string * V).

Fixpoint get {V} (d : t V) (k : string) : option V :=
  match d with
  | [] => None
  | (k', v) :: d' => if String.eqb k' k then Some v else get d' k
  end.

(** [d[k] = v]: an existing key keeps its position. *)
Fixpoint set {V} (d : t V) (k : string) (v : V) : t V :=
  match d with
  | [] => [(k, v)]
  | (k', v') :: d' =>
      if String.eqb k' k then (k', v) :: d' else (k', v') :: set d' k v
  end.

Definition keys {V} (d : t V) : list string := map fst d.

(** A dict display [{k1: v1, ...}]. *)
Definition of_list {V} (l : list (string * V)) : t V :=
  fold_left (fun d kv => set d (fst kv) (snd kv)) l [].

End Dict.

(** ** The host and the interpreter state *)

(** What [platform], [time] and [psutil] report at one instant. *)
Record Host : Type := {
  node : string;                      (* platform.node() *)
  platform_platform : string;         (* platform.platform() *)
  platform_system : string;           (* platform.system() *)
  time_time : Q;                      (* time.time() *)
  cpu_percent : Q;                    (* psutil.cpu_percent(interval=None) *)
  virtual_memory_percent : Q;         (* psutil.virtual_memory().percent *)
  boot_time_isoformat : string;       (* datetime.fromtimestamp(psutil.boot_time())
                                         .astimezone().isoformat() *)
  bytes_sent : Z;                     (* psutil.net_io_counters().bytes_sent *)
  bytes_recv : Z;                     (* psutil.net_io_counters().bytes_recv *)
  has_sensors_temperatures : bool;    (* hasattr(psutil, "sensors_temperatures") *)
  sensors_temperatures : Dict.t (list Q)
                                      (* psutil.sensors_temperatures(): group name ->
                                         the [.current] of each reading *)
}.

Record Message : Type := {
  topic : string;
  payload : Value;
  retain : bool
}.

(** An entry of the [sched.scheduler] queue.  The only action ever entered
    is [status] with the arguments of the running call, so the entry keeps
    the delay and the priority. *)
Record Event : Type := {
  delay : Z;
  priority : Z
}.

Record State : Type := {
  host : Host;
  last : gmap string (Q * Q);   (* the module global [last] (line 37) *)
  temp_sensor : option string;  (* the local [temp_sensor] of [load_properties],
                                   the cell its lambdas close over *)
  published : list Message;     (* calls of [publish], oldest first *)
  queue : list Event            (* events entered in the scheduler *)
}.

(** Computations that read and write the state and may raise.  The state
    returned with [Raise] is the state at the point of the raise. *)
Definition M (A : Type) : Type := State -> result A * State.

Definition ret {A} (a : A) : M A := fun st => (Ok a, st).

Definition raise {A} (e : exn) : M A := fun st => (Raise e, st).

Definition bind {A B} (c : M A) (k : A -> M B) : M B :=
  fun st =>
    match c st with
    | (Ok a, st') => k a st'
    | (Raise e, st') => (Raise e, st')
    end.

Declare Scope py_scope.
Delimit Scope py_scope with py.
Notation "x <- c ;; k" := (bind c (fun x => k))
  (at level 100, c at next level, right associativity) : py_scope.
Notation "c ;;; k" := (bind c (fun _ => k))
  (at level 100, right associativity) : py_scope.

Definition gets {A} (f : State -> A) : M A := fun st => (Ok (f st), st).

Definition lift {A} (r : result A) : M A := fun st => (r, st).

(** The state [st] with [l] as the value of [last]. *)
Definition with_last (l : gmap string (Q * Q)) (st : State) : State :=
  {| host := host st; last := l; temp_sensor := temp_sensor st;
     published := published st; queue := queue st |}.

(** The state [st] at a later instant, when the host reports [h]. *)
Definition with_host (h : Host) (st : State) : State :=
  {| host := h; last := last st; temp_sensor := temp_sensor st;
     published := published st; queue := queue st |}.

Definition with_published (l : list Message) (st : State) : State :=
  {| host := host st; last := last st; temp_sensor := temp_sensor st;
     published := l; queue := queue st |}.

Definition with_queue (l : list Event) (st : State) : State :=
  {| host := host st; last := last st; temp_sensor := temp_sensor st;
     published := published st; queue := l |}.

Definition set_last (l : gmap string (Q * Q)) : M unit :=
  fun st => (Ok tt, with_last l st).

Definition with_temp_sensor (v : option string) (st : State) : State :=
  {| host := host st; last := last st; temp_sensor := v;
     published := published st; queue := queue st |}.

Definition set_temp_sensor (k : string) : M unit :=
  fun st => (Ok tt, with_temp_sensor (Some k) st).

(** [mqttc.publish(topic, payload, retain=retain)]. *)
Definition publish (t : string) (v : Value) (r : bool) : M unit :=
  fun st =>
    (Ok tt,
     with_published
       (published st ++ [{| topic := t; payload := v; retain := r |}]) st).

(** [s.enter(delay, priority, status, ...)]. *)
Definition enter (d p : Z) : M unit :=
  fun st => (Ok tt, with_queue (queue st ++ [{| delay := d; priority := p |}]) st).

(** [for x in l: body(x)]. *)
Fixpoint for_each {A} (l : list A) (body : A -> M unit) : M unit :=
  match l with
  | [] => ret tt
  | x :: l' => (body x ;;; for_each l' body)%py
  end.

(** ** Slugification *)

Local Open Scope string_scope.

Definition is_upper (c : ascii) : bool :=
  let n := nat_of_ascii c in (65 <=? n)%nat && (n <=? 90)%nat.

Definition to_lower (c : ascii) : ascii :=
  if is_upper c then ascii_of_nat (nat_of_ascii c + 32) else c.

Definition is_slug_char (c : ascii) : bool :=
  let n := nat_of_ascii c in
  ((48 <=? n)%nat && (n <=? 57)%nat) || ((97 <=? n)%nat && (n <=? 122)%nat).

(** [slugify_from started pending s]: the slug of the rest [s] of a text,
    where [started] tells that a slug character has been produced already
    and [pending] that separator characters have been skipped since. *)
Fixpoint slugify_from (started pending : bool) (s : string) : string :=
  match s with
  | EmptyString => EmptyString
  | String c s' =>
      let c' := to_lower c in
      if is_slug_char c' then
        if started && pending
        then String "-" (String c' (slugify_from true false s'))
        else String c' (slugify_from true false s')
      else slugify_from started true s'
  end.

(** Modelled from the spec: [slugify] is imported from the third-party
    package [slugify] (daemon.py, line 19), whose code is not part of the
    repository.  The model is the transform of section 4.3, "lower-case,
    ASCII, word-separator normalization", as that package performs it on
    ASCII text with its default arguments: letters are lower-cased, every
    maximal run of characters other than letters and digits becomes one
    "-", and no "-" is left at either end.  Transliteration of non-ASCII
    text, decoding of HTML entities and the removal of a comma between two
    digits are not modelled. *)
Definition slugify (s : string) : string := slugify_from false false s.

(** ** Module constants (lines 24 to 31) *)

Definition version : string := "0.0.3".

Definition MQTT_BASE_TOPIC (h : Host) : string := "ps2mqtt/" ++ slugify (node h).

(** ["{}/status".format(base_topic)] *)
Definition MQTT_PS2MQTT_STATUS (base_topic : string) : string :=
  base_topic ++ "/status".

(** ["{}/{}".format(base_topic, sensor)] *)
Definition MQTT_STATE_TOPIC (base_topic sensor : string) : string :=
  base_topic ++ "/" ++ sensor.

Definition MQTT_AVAILABLE : string := "online".
Definition MQTT_NOT_AVAILABLE : string := "offline".

(** ["{}/sensor/ps2mqtt_{}/{}/config".format(prefix, host_slug, sensor)] *)
Definition HA_DISCOVERY_PREFIX (prefix host_slug sensor : string) : string :=
  prefix ++ "/sensor/ps2mqtt_" ++ host_slug ++ "/" ++ sensor ++ "/config".

Definition OPTIONAL_ATTR : list string :=
  ["device_class"; "icon"; "unit_of_measurement"].

(** ** The rate store (lines 37 to 49) *)

Local Open Scope py_scope.

Definition rate (key : string) (value : Q) : M Q :=
  now <- gets (fun st => time_time (host st)) ;;
  store <- gets last ;;
  rate <- match store !! key with
          | Some (ltime, lvalue) =>
              lift (Decimal.div (Decimal.of_float (Float.sub value lvalue))
                                (Decimal.of_float (Float.sub now ltime)))
          | None => ret 0%Q
          end ;;
  set_last (<[key := (now, value)]> store) ;;;
  ret (Decimal.to_float rate).

(** ** The metric registry (lines 52 to 103) *)

(** One value of the [properties] dict: its string-valued members and the
    member ["call"]. *)
Record Metric : Type := {
  attrs : gmap string string;
  call : M Value
}.

Definition fixed_properties : Dict.t Metric :=
  Dict.of_list [
    ("cpu_percent",
      {| attrs := {[ "unit_of_measurement" := "%"; "icon" := "mdi:chip" ]};
         call := x <- gets (fun st => cpu_percent (host st)) ;; ret (VFloat x) |});
    ("virtual_memory",
      {| attrs := {[ "unit_of_measurement" := "%"; "icon" := "mdi:memory" ]};
         call := x <- gets (fun st => virtual_memory_percent (host st)) ;;
                 ret (VFloat x) |});
    ("uptime",
      {| attrs := {[ "device_class" := "timestamp" ]};
         call := x <- gets (fun st => boot_time_isoformat (host st)) ;;
                 ret (VStr x) |});
    ("bytes_sent",
      {| attrs := {[ "unit_of_measurement" := "MiB"; "icon" := "mdi:upload-network" ]};
         call := n <- gets (fun st => bytes_sent (host st)) ;;
                 ret (VInt (Float.to_int (Float.int_truediv n 1000000))) |});
    ("bytes_recv",
      {| attrs := {[ "unit_of_measurement" := "MiB"; "icon" := "mdi:download-network" ]};
         call := n <- gets (fun st => bytes_recv (host st)) ;;
                 ret (VInt (Float.to_int (Float.int_truediv n 1000000))) |});
    ("upload",
      {| attrs := {[ "unit_of_measurement" := "kbps"; "icon" := "mdi:upload-network" ]};
         call := n <- gets (fun st => bytes_sent (host st)) ;;
                 x <- rate "upload" (Float.int_truediv n 1000) ;;
                 ret (VFloat x) |});
    ("download",
      {| attrs := {[ "unit_of_measurement" := "kbps"; "icon" := "mdi:download-network" ]};
         call := n <- gets (fun st => bytes_recv (host st)) ;;
                 x <- rate "download" (Float.int_truediv n 1000) ;;
                 ret (VFloat x) |})
  ].

(** [lambda: psutil.sensors_temperatures()[temp_sensor][0].current]
    (line 100).  [temp_sensor] is a free variable of the lambda: it is read
    from the enclosing function's cell when the lambda is called. *)
Definition temperature_call : M Value :=
  temps <- gets (fun st => sensors_temperatures (host st)) ;;
  var <- gets temp_sensor ;;
  match var with
  | None => raise (NameError "temp_sensor")
  | Some k =>
      match Dict.get temps k with
      | None => raise (KeyError k)
      | Some [] => raise IndexError
      | Some (current :: _) => ret (VFloat current)
      end
  end.

Definition temperature_entry : Metric :=
  {| attrs := {[ "unit_of_measurement" := "°C"; "device_class" := "temperature" ]};
     call := temperature_call |}.

(** The loop of lines 96 to 101 over the keys of the dict returned by
    [psutil.sensors_temperatures()]. *)
Fixpoint temperature_loop (names : list string) (properties : Dict.t Metric)
  : M (Dict.t Metric) :=
  match names with
  | [] => ret properties
  | name :: names' =>
      set_temp_sensor name ;;;
      temperature_loop names' (Dict.set properties name temperature_entry)
  end.

Definition load_properties : M (Dict.t Metric) :=
  has <- gets (fun st => has_sensors_temperatures (host st)) ;;
  if has : bool then
    temps <- gets (fun st => sensors_temperatures (host st)) ;;
    temperature_loop (Dict.keys temps) fixed_properties
  else ret fixed_properties.

(** ** The discovery record builder (lines 106 to 128) *)

(** The dict display of lines 108 to 123. *)
Definition json_config (h : Host) (sensor base_topic : string) : Dict.t Json :=
  Dict.of_list [
    ("name", JStr sensor);
    ("unique_id", JStr (slugify (node h ++ " " ++ sensor)));
    ("object_id", JStr (slugify (node h ++ " " ++ sensor)));
    ("state_topic", JStr (MQTT_STATE_TOPIC base_topic sensor));
    ("availability_topic", JStr (MQTT_PS2MQTT_STATUS base_topic));
    ("payload_available", JStr MQTT_AVAILABLE);
    ("payload_not_available", JStr MQTT_NOT_AVAILABLE);
    ("device", JObj (Dict.of_list [
       ("identifiers", JStr (node h ++ "_ps2mqtt"));
       ("name", JStr (node h));
       ("sw_version", JStr (platform_platform h));
       ("model", JStr (platform_system h));
       ("manufacturer", JStr ("ps2mqtt " ++ version))
     ]))
  ].

(** The keys of that display, the mandatory members of a payload. *)
Definition MANDATORY : list string :=
  ["name"; "unique_id"; "object_id"; "state_topic"; "availability_topic";
   "payload_available"; "payload_not_available"; "device"].

(** The loop of lines 124 to 126; [properties[sensor]] is looked up at
    every turn. *)
Fixpoint copy_optional (names : list string) (sensor : string)
    (properties : Dict.t Metric) (config : Dict.t Json) : result (Dict.t Json) :=
  match names with
  | [] => Ok config
  | attr :: names' =>
      match Dict.get properties sensor with
      | None => Raise (KeyError sensor)
      | Some entry =>
          match attrs entry !! attr with
          | Some v =>
              copy_optional names' sensor properties (Dict.set config attr (JStr v))
          | None => copy_optional names' sensor properties config
          end
      end
  end.

Definition gen_ha_config (sensor : string) (properties : Dict.t Metric)
    (base_topic : string) : M Value :=
  h <- gets host ;;
  config <- lift (copy_optional OPTIONAL_ATTR sensor properties
                    (json_config h sensor base_topic)) ;;
  ret (VJsonText (JObj config)).

(** ** The scheduler tick (lines 131 to 135) *)

(** Line 134, the body of the loop: the arguments of [publish] are
    evaluated first, the sampling function among them. *)
Definition publish_metric (properties : Dict.t Metric) (base_topic p : string)
  : M unit :=
  v <- match Dict.get properties p with
       | Some entry => call entry
       | None => raise (KeyError p)
       end ;;
  publish (MQTT_STATE_TOPIC base_topic p) v false.

Definition status (properties : Dict.t Metric) (period : Z) (base_topic : string)
  : M unit :=
  for_each (Dict.keys properties) (publish_metric properties base_topic) ;;;
  enter period 1.

(** [s.run()] (line 208) for as many wake-ups as [hosts] is long: the
    scheduler takes the first event out of its queue, sleeps until it is
    due, and calls its action, here [status]; an exception raised by the
    action leaves [run].  The [i]-th element of [hosts] is what the host
    reports at the [i]-th wake-up. *)
Fixpoint run (hosts : list Host) (properties : Dict.t Metric) (period : Z)
    (base_topic : string) : M unit :=
  match hosts with
  | [] => ret tt
  | h :: hosts' =>
      fun st =>
        match queue st with
        | [] => (Ok tt, st)
        | _ :: events =>
            (status properties period base_topic ;;;
             run hosts' properties period base_topic)
              (with_host h (with_queue events st))
        end
  end.

(** ** The connect callback (lines 138 to 150) *)

(** Lines 146 to 150, the body of the loop. *)
Definition publish_discovery (properties : Dict.t Metric)
    (ha_prefix base_topic p : string) : M unit :=
  h <- gets host ;;
  config <- gen_ha_config p properties base_topic ;;
  publish (HA_DISCOVERY_PREFIX ha_prefix (slugify (node h)) p) config true.

Definition on_connect (userdata : Dict.t Metric * string * string)
    (flags rc : Z) : M unit :=
  let '(properties, ha_prefix, base_topic) := userdata in
  publish (MQTT_PS2MQTT_STATUS base_topic) (VStr MQTT_AVAILABLE) true ;;;
  for_each (Dict.keys properties) (publish_discovery properties ha_prefix base_topic).

Close Scope py_scope.

Local Open Scope string_scope.

(** ** Closed forms used in the statements *)

(** The registry once the loop of lines 96 to 101 has assigned an entry to
    each of [names]. *)
Definition assign_all (names : list string) (properties : Dict.t Metric)
  : Dict.t Metric :=
  fold_left (fun d k => Dict.set d k temperature_entry) names properties.

(** [m] is the discovery record of the metric [p] on the host [h]. *)
Definition is_discovery (properties : Dict.t Metric) (ha_prefix base_topic : string)
    (h : Host) (p : string) (m : Message) : Prop :=
  topic m = HA_DISCOVERY_PREFIX ha_prefix (slugify (node h)) p /\
  retain m = true /\
  exists config,
    payload m = VJsonText (JObj config) /\
    copy_optional OPTIONAL_ATTR p properties (json_config h p base_topic) = Ok config.

(** Whether a text holds a letter or a digit. *)
Fixpoint has_slug_char (s : string) : bool :=
  match s with
  | EmptyString => false
  | String c s' => is_slug_char (to_lower c) || has_slug_char s'
  end.

(** The pieces of a text between its characters that are neither letters
    nor digits, lower-cased; a piece is empty where two such characters
    meet, and at either end of the text. *)
Fixpoint split_words (s : string) : list string :=
  match s with
  | EmptyString => [EmptyString]
  | String c s' =>
      if is_slug_char (to_lower c) then
        match split_words s' with
        | w :: ws => String (to_lower c) w :: ws
        | [] => [String (to_lower c) EmptyString]
        end
      else EmptyString :: split_words s'
  end.

Definition nonempty (w : string) : bool :=
  match w with
  | EmptyString => false
  | String _ _ => true
  end.

(** The words of a text: its maximal runs of letters and digits, in lower
    case.  Two texts have the same words when they differ only in letter
    case and in the characters between, before and after the runs. *)
Definition slug_words (s : string) : list string :=
  List.filter nonempty (split_words s).

(** The words of a list joined by "-"; empty words are skipped. *)
Fixpoint join_words (started : bool) (ws : list string) : string :=
  match ws with
  | [] => EmptyString
  | EmptyString :: ws' => join_words started ws'
  | w :: ws' => (if started then "-" else "") ++ w ++ join_words true ws'
  end.

(** A text of lower-case letters and digits only. *)
Fixpoint all_slug (w : string) : bool :=
  match w with
  | EmptyString => true
  | String c w' => is_slug_char c && all_slug w'
  end.

(** A computation that changes nothing of the state but [last]. *)
Definition only_writes_last (c : M Value) : Prop :=
  forall st, snd (c st) = with_last (last (snd (c st))) st.

(** [last] holds a sample for [key] taken at the time the clock shows now. *)
Definition clock_stalled (key : string) (st : State) : Prop :=
  exists ltime lvalue,
    last st !! key = Some (ltime, lvalue) /\ (ltime == time_time (host st))%Q.

Local Close Scope string_scope.

(** ** Concrete hosts and states *)

(** The state of the interpreter when [main] starts. *)
Definition initial_state (h : Host) : State :=
  {| host := h; last := ∅; temp_sensor := None; published := []; queue := [] |}.

(** A host with two groups of temperature sensors. *)
Definition example_host : Host :=
  {| node := "Media Box";
     platform_platform := "Linux-6.1.0-amd64-x86_64-with-glibc2.36";
     platform_system := "Linux";
     time_time := 100;
     cpu_percent := 12.5;
     virtual_memory_percent := 40;
     boot_time_isoformat := "2024-01-01T08:00:00+00:00";
     bytes_sent := 5000000;
     bytes_recv := 7000000;
     has_sensors_temperatures := true;
     sensors_temperatures := [("coretemp", [42%Q; 40%Q]); ("acpitz", [27.8%Q])] |}.

(** The same host some time later in the same second of its clock: the
    counters have moved, [time.time()] has not. *)
Definition example_host_later : Host :=
  {| node := node example_host;
     platform_platform := platform_platform example_host;
     platform_system := platform_system example_host;
     time_time := time_time example_host;
     cpu_percent := 3;
     virtual_memory_percent := 41;
     boot_time_isoformat := boot_time_isoformat example_host;
     bytes_sent := 5002000;
     bytes_recv := 7009000;
     has_sensors_temperatures := true;
     sensors_temperatures := sensors_temperatures example_host |}.

(** A host whose interface has sent a little over 17 petabytes since boot
    (16 days at 100 Gbit/s). *)
Definition example_host_busy : Host :=
  {| node := node example_host;
     platform_platform := platform_platform example_host;
     platform_system := platform_system example_host;
     time_time := 1400000;
     cpu_percent := 97;
     virtual_memory_percent := 41;
     boot_time_isoformat := boot_time_isoformat example_host;
     bytes_sent := 17179869184999999;
     bytes_recv := 7009000;
     has_sensors_temperatures := true;
     sensors_temperatures := sensors_temperatures example_host |}.

(** The rate store after one sample of each rate metric on [example_host]. *)
Definition example_last : gmap string (Q * Q) :=
  {[ "upload" := (100%Q, 5000%Q); "download" := (100%Q, 7000%Q) ]}.

(** A host with little traffic, 10000 seconds after a first sample of
    "upload" taken when 5 bytes had been sent: 1,250,005 bytes are sent. *)
Definition example_host_quiet : Host :=
  {| node := node example_host;
     platform_platform := platform_platform example_host;
     platform_system := platform_system example_host;
     time_time := 10100;
     cpu_percent := 1;
     virtual_memory_percent := 40;
     boot_time_isoformat := boot_time_isoformat example_host;
     bytes_sent := 1250005;
     bytes_recv := 7000000;
     has_sensors_temperatures := true;
     sensors_temperatures := sensors_temperatures example_host |}.

Definition example_last_quiet : gmap string (Q * Q) :=
  {[ "upload" := (100%Q, Float.int_truediv 5 1000) ]}.

Local Open Scope string_scope.

(** ** Start-up (lines 153 to 224) *)

(** A scalar of the configuration: a YAML string or integer. *)
Inductive CVal : Type :=
  | CStr (s : string)
  | CInt (z : Z).

(** [str(v)], what [str.format] puts in a topic for [v]. *)
Definition str (v : CVal) : string :=
  match v with
  | CStr s => s
  | CInt z => pretty z
  end.

(** The namespace that [parser.parse_args()] returns (lines 155 to 169). *)
Record Args : Type := {
  arg_config : string;
  arg_period : Z;
  arg_mqtt_server : string;
  arg_mqtt_port : Z;
  arg_mqtt_base_topic : string;
  arg_ha_discover_prefix : string
}.

(** [args.__dict__]. *)
Definition args_dict (a : Args) : gmap string CVal :=
  {[ "config" := CStr (arg_config a);
     "period" := CInt (arg_period a);
     "mqtt_server" := CStr (arg_mqtt_server a);
     "mqtt_port" := CInt (arg_mqtt_port a);
     "mqtt_base_topic" := CStr (arg_mqtt_base_topic a);
     "ha_discover_prefix" := CStr (arg_ha_discover_prefix a) ]}.

(** The dict of lines 171 to 176: it has no entry for the period. *)
Definition default_config (a : Args) : gmap string CVal :=
  {[ "mqtt_server" := CStr (arg_mqtt_server a);
     "mqtt_port" := CInt (arg_mqtt_port a);
     "mqtt_base_topic" := CStr (arg_mqtt_base_topic a);
     "ha_discover_prefix" := CStr (arg_ha_discover_prefix a) ]}.

(** What [main] can meet besides the exceptions of the core. *)
Inductive error : Type :=
  | PyExn (e : exn)
  | FileNotFoundError
  | TypeError
  | ConnectError.              (* whatever [mqttc.connect] raises *)

(** The surroundings of one start of the daemon. *)
Record World : Type := {
  argv : Args;
  boot : Host;                       (* the host until the first wake-up *)
  wakeups : list Host;               (* the host at each wake-up of [s.run()] *)
  reachable : CVal -> CVal -> bool   (* whether [connect(server, port, 60)] returns *)
}.

(** How far the [try] block got. *)
Inductive Progress : Type :=
  | Completed
  | Failed (e : error)
  | Scheduled.                       (* [s.run()] has more events to run *)

Record Try : Type := {
  try_config : gmap string CVal;     (* the variable [config] *)
  try_progress : Progress;
  try_state : State;
  try_will : option Message;         (* the last will registered by [will_set] *)
  try_connection : option (CVal * CVal)
}.

(** Lines 179 to 208.  [file] is the mapping held by the YAML file
    [args.config], if the file exists.  The network thread that
    [loop_start] starts, which calls [on_connect], is not part of the
    model: [try_state] records what the main thread does. *)
Definition try_block (w : World) (file : option (gmap string CVal)) : Try :=
  let st0 := initial_state (boot w) in
  match file with
  | None =>
      {| try_config := default_config (argv w); try_progress := Failed FileNotFoundError;
         try_state := st0; try_will := None; try_connection := None |}
  | Some config =>
      let stop e st will connection :=
        {| try_config := config; try_progress := e; try_state := st;
           try_will := will; try_connection := connection |} in
      match load_properties st0 with
      | (Raise e, st) => stop (Failed (PyExn e)) st None None
      | (Ok properties, st) =>
          match config !! "mqtt_server" with
          | None => stop (Failed (PyExn (KeyError "mqtt_server"))) st None None
          | Some server =>
          match config !! "mqtt_port" with
          | None => stop (Failed (PyExn (KeyError "mqtt_port"))) st None None
          | Some port =>
          match config !! "ha_discover_prefix" with
          | None => stop (Failed (PyExn (KeyError "ha_discover_prefix"))) st None None
          | Some ha_prefix =>
          match config !! "mqtt_base_topic" with
          | None => stop (Failed (PyExn (KeyError "mqtt_base_topic"))) st None None
          | Some base_topic =>
              let will :=
                Some {| topic := MQTT_PS2MQTT_STATUS (str base_topic);
                        payload := VStr MQTT_NOT_AVAILABLE; retain := true |} in
              if reachable w server port then
                let connection := Some (server, port) in
                match config !! "period" with
                | None => stop (Failed (PyExn (KeyError "period"))) st will connection
                | Some (CInt period) =>
                    match bind (status properties period (str base_topic))
                            (fun _ => run (wakeups w) properties period (str base_topic))
                            st with
                    | (Ok _, st') =>
                        stop (match queue st' with [] => Completed | _ => Scheduled end)
                          st' will connection
                    | (Raise e, st') => stop (Failed (PyExn e)) st' will connection
                    end
                | Some (CStr _) =>
                    (* the loop of [status] runs; [s.enter] cannot add the delay *)
                    match for_each (Dict.keys properties)
                            (publish_metric properties (str base_topic)) st with
                    | (Ok _, st') => stop (Failed TypeError) st' will connection
                    | (Raise e, st') => stop (Failed (PyExn e)) st' will connection
                    end
                end
              else stop (Failed ConnectError) st will None
          end end end end
      end
  end.

Inductive Outcome : Type :=
  | Returned
  | Raised (e : error)
  | Running.

Record Run : Type := {
  outcome : Outcome;
  final : State;
  will : option Message;
  connection : option (CVal * CVal);
  file_after : option (gmap string CVal)
}.

(** [main]: the [try] block, its two handlers and the [finally] clause,
    which writes [config] to the file whenever the block is left. *)
Definition main (w : World) (file : option (gmap string CVal)) : Run :=
  let t := try_block w file in
  let finish o config :=
    {| outcome := o; final := try_state t; will := try_will t;
       connection := try_connection t; file_after := Some config |} in
  match try_progress t with
  | Completed => finish Returned (try_config t)
  | Scheduled =>
      {| outcome := Running; final := try_state t; will := try_will t;
         connection := try_connection t; file_after := file |}
  | Failed FileNotFoundError => finish Returned (try_config t)
  | Failed (PyExn (KeyError missing_key)) =>
      match args_dict (argv w) !! missing_key with
      | Some v => finish Returned (<[missing_key := v]> (try_config t))
      | None => finish (Raised (PyExn (KeyError missing_key))) (try_config t)
      end
  | Failed e => finish (Raised e) (try_config t)
  end.

(** The same surroundings with other command-line arguments. *)
Definition with_argv (a : Args) (w : World) : World :=
  {| argv := a; boot := boot w; wakeups := wakeups w; reachable := reachable w |}.

Local Close Scope string_scope.

(** A host without temperature sensors, and the same host at a wake-up
    at which [time.time()] returns what it returned on the tick before. *)
Definition example_host_plain : Host :=
  {| node := "Media Box";
     platform_platform := "Windows-10-10.0.19045-SP0";
     platform_system := "Windows";
     time_time := 100;
     cpu_percent := 12.5;
     virtual_memory_percent := 40;
     boot_time_isoformat := "2024-01-01T08:00:00+00:00";
     bytes_sent := 5000000;
     bytes_recv := 7000000;
     has_sensors_temperatures := false;
     sensors_temperatures := [] |}.

Definition example_host_plain_later : Host :=
  {| node := node example_host_plain;
     platform_platform := platform_platform example_host_plain;
     platform_system := platform_system example_host_plain;
     time_time := time_time example_host_plain;
     cpu_percent := 3;
     virtual_memory_percent := 41;
     boot_time_isoformat := boot_time_isoformat example_host_plain;
     bytes_sent := 5002000;
     bytes_recv := 7009000;
     has_sensors_temperatures := false;
     sensors_temperatures := [] |}.

Definition example_args : Args :=
  {| arg_config := "config.yaml"; arg_period := 60; arg_mqtt_server := "localhost";
     arg_mqtt_port := 1883; arg_mqtt_base_topic := "ps2mqtt/media-box";
     arg_ha_discover_prefix := "homeassistant" |}%string.

Definition example_world : World :=
  {| argv := example_args; boot := example_host_plain;
     wakeups := [example_host_plain_later];
     reachable := fun _ _ => true |}.

(** A complete configuration file. *)
Definition example_config : gmap string CVal :=
  {[ "mqtt_server" := CStr "broker.lan"; "mqtt_port" := CInt 8883;
     "mqtt_base_topic" := CStr "home/media-box";
     "ha_discover_prefix" := CStr "homeassistant"; "period" := CInt 30 ]}%string.

(** * Properties *)

(** ** Rounding *)

Module RoundFacts.
Import Round.

Lemma round_half_even_spec n d :
  0 <= n -> 0 < d ->
  let m := round_half_even n d in
  0 <= m /\ - d <= 2 * n - 2 * m * d <= d /\
  (Z.abs (2 * n - 2 * m * d) = d -> Z.even m = true).
Proof.
  intros Hn Hd. unfold round_half_even.
  pose proof (Z.div_mod n d ltac:(lia)) as Hdm.
  pose proof (Z.mod_pos_bound n d Hd) as Hr.
  pose proof (Z.div_pos n d Hn Hd) as Hq.
  set (q := n / d) in *. set (r := n mod d) in *.
  destruct (Z.compare_spec (2 * r) d) as [He | Hlt | Hgt]; cbn zeta.
  - destruct (Z.even q) eqn:Hev.
    + split; [nia | split; [nia | auto]].
    + split; [nia | split; [nia |]]. intros _.
      replace (q + 1) with (Z.succ q) by lia.
      rewrite Z.even_succ, <- Z.negb_even, Hev. reflexivity.
  - split; [nia | split; [nia |]]. intros Habs. exfalso. nia.
  - split; [nia | split; [nia |]]. intros Habs. exfalso. nia.
Qed.

Lemma digits_aux_spec beta : 2 <= beta -> forall fuel n,
  0 < n < beta ^ Z.of_nat fuel ->
  let k := digits_aux beta fuel n in
  1 <= k /\ beta ^ (k - 1) <= n < beta ^ k.
Proof.
  intros Hb. induction fuel as [| f IH]; intros n Hn.
  - cbn in Hn. lia.
  - cbn [digits_aux]. destruct (Z.ltb_spec n beta) as [Hlt | Hge].
    + cbn zeta. split; [lia |]. cbn. rewrite Z.pow_1_r. lia.
    + assert (Hq : 0 < n / beta < beta ^ Z.of_nat f).
      { split.
        - apply Z.div_str_pos. lia.
        - apply Z.div_lt_upper_bound; [lia |].
          rewrite Nat2Z.inj_succ, Z.pow_succ_r in Hn by lia. lia. }
      specialize (IH _ Hq). cbn zeta in *.
      set (k := digits_aux beta f (n / beta)) in *.
      destruct IH as (Hk & Hlo & Hhi).
      pose proof (Z.div_mod n beta ltac:(lia)) as Hdm.
      pose proof (Z.mod_pos_bound n beta ltac:(lia)) as Hr.
      split; [lia |].
      replace (1 + k - 1) with (Z.succ (k - 1)) by lia.
      replace (1 + k) with (Z.succ k) by lia.
      rewrite !Z.pow_succ_r by lia. nia.
Qed.

Lemma digits_spec beta n :
  2 <= beta -> 0 < n ->
  1 <= digits beta n /\ beta ^ (digits beta n - 1) <= n < beta ^ digits beta n.
Proof.
  intros Hb Hn. unfold digits. apply (digits_aux_spec beta Hb). split; [lia |].
  rewrite Nat2Z.inj_succ, Z2Nat.id by apply Z.log2_nonneg.
  pose proof (Z.log2_spec n Hn) as [_ Hlt].
  eapply Z.lt_le_trans; [exact Hlt |].
  apply Z.pow_le_mono_l. lia.
Qed.

Section Scale.
Variables (beta n d : Z).
Hypotheses (Hbeta : 2 <= beta) (Hn : 0 < n) (Hd : 0 < d).

Lemma pow_pos e : 0 <= e -> 0 < beta ^ e.
Proof. intros. apply Z.pow_pos_nonneg; lia. Qed.

Lemma scale_pos e : 0 < fst (scale beta n d e) /\ 0 < snd (scale beta n d e).
Proof.
  unfold scale; cbn [fst snd].
  pose proof (pow_pos (Z.max 0 (- e)) ltac:(lia)).
  pose proof (pow_pos (Z.max 0 e) ltac:(lia)). nia.
Qed.

(** Lowering the exponent by one multiplies the scaled quotient by
    the radix. *)
Lemma scale_pred e :
  fst (scale beta n d (e - 1)) * snd (scale beta n d e) =
  beta * fst (scale beta n d e) * snd (scale beta n d (e - 1)).
Proof.
  unfold scale; cbn [fst snd].
  destruct (Z_le_gt_dec 1 e) as [Hge | Hlt].
  - rewrite (Z.max_l 0 (- (e - 1))), (Z.max_l 0 (- e)) by lia.
    rewrite (Z.max_r 0 (e - 1)), (Z.max_r 0 e) by lia.
    replace e with (Z.succ (e - 1)) at 1 by lia.
    rewrite Z.pow_succ_r by lia. ring.
  - rewrite (Z.max_r 0 (- (e - 1))), (Z.max_r 0 (- e)) by lia.
    rewrite (Z.max_l 0 (e - 1)), (Z.max_l 0 e) by lia.
    replace (- (e - 1)) with (Z.succ (- e)) by lia.
    rewrite Z.pow_succ_r by lia. ring.
Qed.

Lemma scale_upper a b p e :
  0 <= a -> 0 <= b -> 0 <= p -> a = e + b + p ->
  n < beta ^ a -> beta ^ b <= d ->
  fst (scale beta n d e) < beta ^ p * snd (scale beta n d e).
Proof.
  intros Ha Hb Hp -> Hna Hbd. unfold scale; cbn [fst snd].
  pose proof (pow_pos p Hp) as Hpp. pose proof (pow_pos b Hb) as Hpb.
  destruct (Z_le_gt_dec 0 e) as [Hge | Hlt].
  - rewrite (Z.max_l 0 (- e)), (Z.max_r 0 e) by lia.
    pose proof (pow_pos e Hge) as Hpe.
    rewrite !Z.pow_add_r in Hna by lia. rewrite Z.pow_0_r. nia.
  - rewrite (Z.max_r 0 (- e)), (Z.max_l 0 e) by lia.
    pose proof (pow_pos (- e) ltac:(lia)) as Hpe.
    assert (Hsum : beta ^ (e + b + p) * beta ^ (- e) = beta ^ b * beta ^ p).
    { rewrite <- !Z.pow_add_r by lia. f_equal. lia. }
    rewrite Z.pow_0_r. nia.
Qed.

Lemma scale_lower a b p e :
  0 <= a -> 0 <= b -> 0 <= p -> a = e + b + p ->
  beta ^ a <= n -> d < beta ^ b ->
  beta ^ p * snd (scale beta n d e) < fst (scale beta n d e).
Proof.
  intros Ha Hb Hp -> Hna Hbd. unfold scale; cbn [fst snd].
  pose proof (pow_pos p Hp) as Hpp. pose proof (pow_pos b Hb) as Hpb.
  destruct (Z_le_gt_dec 0 e) as [Hge | Hlt].
  - rewrite (Z.max_l 0 (- e)), (Z.max_r 0 e) by lia.
    pose proof (pow_pos e Hge) as Hpe.
    rewrite !Z.pow_add_r in Hna by lia. rewrite Z.pow_0_r. nia.
  - rewrite (Z.max_r 0 (- e)), (Z.max_l 0 e) by lia.
    pose proof (pow_pos (- e) ltac:(lia)) as Hpe.
    assert (Hsum : beta ^ (e + b + p) * beta ^ (- e) = beta ^ b * beta ^ p).
    { rewrite <- !Z.pow_add_r by lia. f_equal. lia. }
    rewrite Z.pow_0_r. nia.
Qed.

(** The exponent chosen puts the scaled quotient in
    [[beta ^ (prec - 1), beta ^ prec)]. *)
Lemma exponent_spec prec :
  1 <= prec ->
  let e := exponent beta prec n d in
  beta ^ (prec - 1) * snd (scale beta n d e) <= fst (scale beta n d e)
  /\ fst (scale beta n d e) < beta ^ prec * snd (scale beta n d e).
Proof.
  intros Hp. unfold exponent.
  destruct (digits_spec beta n Hbeta Hn) as (Ha & Hnlo & Hnhi).
  destruct (digits_spec beta d Hbeta Hd) as (Hb & Hdlo & Hdhi).
  set (a := digits beta n) in *. set (b := digits beta d) in *.
  set (e1 := a - b - prec + 1).
  rewrite (surjective_pairing (scale beta n d e1)).
  destruct (Z.leb_spec (beta ^ (prec - 1) * snd (scale beta n d e1))
                       (fst (scale beta n d e1))) as [Hle | Hgt]; cbn zeta.
  - split; [exact Hle |].
    apply (scale_upper a (b - 1) prec e1); unfold e1; lia.
  - split.
    + apply Z.lt_le_incl.
      apply (scale_lower (a - 1) b (prec - 1) (e1 - 1)); unfold e1; lia.
    + pose proof (scale_pred e1) as Hpred.
      pose proof (scale_pos e1) as [_ HD1].
      pose proof (scale_pos (e1 - 1)) as [_ HD0].
      assert (Hb' : beta ^ prec = beta * beta ^ (prec - 1)).
      { replace prec with (Z.succ (prec - 1)) at 1 by lia.
        rewrite Z.pow_succ_r by lia. reflexivity. }
      rewrite Hb'. nia.
Qed.

Lemma round_pos_spec prec :
  1 <= prec ->
  let m := fst (round_pos beta prec n d) in
  let e := snd (round_pos beta prec n d) in
  let N := fst (scale beta n d e) in
  let D := snd (scale beta n d e) in
  0 < D /\ beta ^ (prec - 1) * D <= N < beta ^ prec * D /\
  beta ^ (prec - 1) <= m <= beta ^ prec /\
  - D <= 2 * N - 2 * m * D <= D /\
  (Z.abs (2 * N - 2 * m * D) = D -> Z.even m = true).
Proof.
  intros Hp. unfold round_pos.
  rewrite (surjective_pairing (scale beta n d (exponent beta prec n d))).
  cbn [fst snd].
  pose proof (exponent_spec prec Hp) as [Hlo Hhi]. cbn zeta in Hlo, Hhi.
  pose proof (scale_pos (exponent beta prec n d)) as [HN HD].
  set (N := fst (scale beta n d (exponent beta prec n d))) in *.
  set (D := snd (scale beta n d (exponent beta prec n d))) in *.
  pose proof (round_half_even_spec N D ltac:(lia) HD) as (Hm & Hnear & Htie).
  cbn zeta in Hm, Hnear, Htie.
  set (m := round_half_even N D) in *.
  pose proof (pow_pos (prec - 1) ltac:(lia)) as Hpp.
  pose proof (pow_pos prec ltac:(lia)) as Hpp'.
  repeat split; try lia; try nia. exact Htie.
Qed.

End Scale.

Lemma bpow_pos beta e : 0 < beta -> (0 < bpow beta e)%Q.
Proof.
  intros Hb. unfold bpow. apply Qpower_0_lt.
  replace 0%Q with (inject_Z 0) by reflexivity. rewrite <- Zlt_Qlt. exact Hb.
Qed.

Lemma fp_value_bpow beta m e :
  0 < beta -> (fp_value beta m e == inject_Z m * bpow beta e)%Q.
Proof.
  intros Hb. unfold fp_value, bpow.
  destruct (Z.leb_spec 0 e) as [Hge | Hlt].
  - rewrite inject_Z_mult, Zpower_Qpower by exact Hge. reflexivity.
  - rewrite Qred_correct, Qmake_Qdiv.
    rewrite Z2Pos.id by (apply Z.pow_pos_nonneg; lia).
    rewrite Zpower_Qpower by lia.
    rewrite Qpower_opp. unfold Qdiv. rewrite Qinv_involutive. reflexivity.
Qed.

(** Powers with exponents of both signs. *)
Lemma bpow_split beta e :
  0 < beta ->
  (inject_Z (beta ^ Z.max 0 e) == bpow beta e * inject_Z (beta ^ Z.max 0 (- e)))%Q.
Proof.
  intros Hb. unfold bpow.
  assert (Hnz : ~ (inject_Z beta == 0)%Q).
  { intros H. apply (inject_Z_injective beta 0) in H. lia. }
  destruct (Z_le_gt_dec 0 e) as [Hge | Hlt].
  - rewrite (Z.max_r 0 e), (Z.max_l 0 (- e)) by lia.
    rewrite Z.pow_0_r, Zpower_Qpower by lia.
    change (inject_Z 1) with 1%Q. ring.
  - rewrite (Z.max_l 0 e), (Z.max_r 0 (- e)) by lia.
    rewrite Z.pow_0_r, Zpower_Qpower by lia.
    change (inject_Z 1) with 1%Q.
    rewrite <- (Qpower_plus _ _ _ Hnz). replace (e + - e) with 0 by lia.
    reflexivity.
Qed.

Section Descale.
Variables (x B K : Q) (N D : Z).
Hypotheses (HK : (0 < K)%Q)
           (HN : (inject_Z N == x * K)%Q)
           (HD : (inject_Z D == B * K)%Q).

Lemma descale_le c : c * D <= N -> (inject_Z c * B <= x)%Q.
Proof.
  intros H. apply (Qmult_le_r _ _ K HK).
  setoid_replace (inject_Z c * B * K)%Q with (inject_Z c * (B * K))%Q using relation Qeq by ring.
  rewrite <- HN, <- HD, <- inject_Z_mult, <- Zle_Qle. exact H.
Qed.

Lemma descale_lt c : N < c * D -> (x < inject_Z c * B)%Q.
Proof.
  intros H. apply (Qmult_lt_r _ _ K HK).
  setoid_replace (inject_Z c * B * K)%Q with (inject_Z c * (B * K))%Q using relation Qeq by ring.
  rewrite <- HN, <- HD, <- inject_Z_mult, <- Zlt_Qlt. exact H.
Qed.

(** The signed error, scaled by [2 * K], is the integer [2 * N - 2 * m * D]. *)
Lemma descale_err m :
  ((x - inject_Z m * B) * 2 * K == inject_Z (2 * N - 2 * m * D))%Q.
Proof.
  unfold Z.sub. rewrite inject_Z_plus, inject_Z_opp, !inject_Z_mult, HN, HD.
  change (inject_Z 2) with 2%Q. ring.
Qed.

Lemma descale_near m :
  - D <= 2 * N - 2 * m * D <= D ->
  (Qabs (x - inject_Z m * B) * 2 <= B)%Q.
Proof.
  intros [Hlo Hhi]. apply (Qmult_le_r _ _ K HK). rewrite <- HD.
  apply Qabs_case; intros _.
  - rewrite descale_err, <- Zle_Qle. exact Hhi.
  - setoid_replace (- (x - inject_Z m * B) * 2 * K)%Q
      with (- ((x - inject_Z m * B) * 2 * K))%Q using relation Qeq by ring.
    rewrite descale_err, <- inject_Z_opp, <- Zle_Qle. lia.
Qed.

Lemma descale_tie m :
  0 < D ->
  (Qabs (x - inject_Z m * B) * 2 == B)%Q ->
  Z.abs (2 * N - 2 * m * D) = D.
Proof.
  intros HDpos Htie.
  assert (H : (Qabs (x - inject_Z m * B) * 2 * K == inject_Z D)%Q).
  { rewrite Htie, HD. reflexivity. }
  revert H. apply Qabs_case; intros _ H.
  - rewrite descale_err in H. apply (proj1 (inject_Z_injective _ _)) in H. lia.
  - setoid_replace (- (x - inject_Z m * B) * 2 * K)%Q
      with (- ((x - inject_Z m * B) * 2 * K))%Q using relation Qeq in H by ring.
    rewrite descale_err, <- inject_Z_opp in H.
    apply (proj1 (inject_Z_injective _ _)) in H. lia.
Qed.
End Descale.

Lemma round_pos_Q beta prec (n dd : positive) :
  2 <= beta -> 1 <= prec ->
  let x := (Zpos n # dd)%Q in
  let m := fst (round_pos beta prec (Zpos n) (Zpos dd)) in
  let e := snd (round_pos beta prec (Zpos n) (Zpos dd)) in
  beta ^ (prec - 1) <= m <= beta ^ prec /\
  (inject_Z (beta ^ (prec - 1)) * bpow beta e <= x)%Q /\
  (x < inject_Z (beta ^ prec) * bpow beta e)%Q /\
  (Qabs (x - inject_Z m * bpow beta e) * 2 <= bpow beta e)%Q /\
  ((Qabs (x - inject_Z m * bpow beta e) * 2 == bpow beta e)%Q -> Z.even m = true).
Proof.
  intros Hb Hp x m e.
  pose proof (round_pos_spec beta (Zpos n) (Zpos dd) Hb ltac:(lia) ltac:(lia) prec Hp)
    as (HD & [Hlo Hhi] & Hm & Hnear & Htie).
  cbn zeta in *. fold m e in HD, Hlo, Hhi, Hm, Hnear, Htie.
  set (N := fst (scale beta (Zpos n) (Zpos dd) e)) in *.
  set (D := snd (scale beta (Zpos n) (Zpos dd) e)) in *.
  set (K := (inject_Z (Zpos dd) * inject_Z (beta ^ Z.max 0 (- e)))%Q).
  assert (HK : (0 < K)%Q).
  { unfold K. apply Qmult_lt_0_compat.
    - replace 0%Q with (inject_Z 0) by reflexivity. rewrite <- Zlt_Qlt. lia.
    - replace 0%Q with (inject_Z 0) by reflexivity. rewrite <- Zlt_Qlt.
      apply Z.pow_pos_nonneg; lia. }
  assert (HN : (inject_Z N == x * K)%Q).
  { unfold N, scale, K; cbn [fst]. rewrite inject_Z_mult.
    setoid_replace (inject_Z (Zpos n)) with (x * inject_Z (Zpos dd))%Q
      using relation Qeq; [ring |].
    unfold x, Qeq; cbn. lia. }
  assert (HDK : (inject_Z D == bpow beta e * K)%Q).
  { unfold D, scale, K; cbn [snd].
    rewrite inject_Z_mult, (bpow_split beta e) by lia. ring. }
  split; [exact Hm |].
  split; [apply (descale_le x _ K N D HK HN HDK); exact Hlo |].
  split; [apply (descale_lt x _ K N D HK HN HDK); exact Hhi |].
  split; [apply (descale_near x _ K N D HK HN HDK); exact Hnear |].
  intros Ht. apply Htie. apply (descale_tie x _ K N D HN HDK); assumption.
Qed.

(** [round_sig] computes the rounding to [prec] significant digits. *)
Lemma round_sig_spec beta prec q :
  2 <= beta -> 1 <= prec -> rounded_to beta prec q (round_sig beta prec q).
Proof.
  intros Hb Hp. destruct q as [qn qd]. unfold round_sig, round_sig_repr.
  cbn [Qnum Qden]. destruct qn as [| n | n].
  - left. split; [reflexivity |]. rewrite fp_value_bpow by lia.
    change (inject_Z 0) with 0%Q. ring.
  - right.
    pose proof (round_pos_Q beta prec n qd Hb Hp) as (Hm & Hlo & Hhi & Hnear & Htie).
    cbn zeta in *.
    rewrite (surjective_pairing (round_pos beta prec (Z.pos n) (Z.pos qd))).
    set (m := fst (round_pos beta prec (Z.pos n) (Z.pos qd))) in *.
    set (e := snd (round_pos beta prec (Z.pos n) (Z.pos qd))) in *.
    pose proof (pow_pos beta Hb (prec - 1) ltac:(lia)) as Hpp.
    exists m, e. split; [lia |].
    split; [apply fp_value_bpow; lia |].
    change (Qabs (Z.pos n # qd)) with (Z.pos n # qd).
    rewrite (fp_value_bpow beta m e) by lia. auto.
  - right.
    pose proof (round_pos_Q beta prec n qd Hb Hp) as (Hm & Hlo & Hhi & Hnear & Htie).
    cbn zeta in *.
    rewrite (surjective_pairing (round_pos beta prec (Z.pos n) (Z.pos qd))).
    set (m := fst (round_pos beta prec (Z.pos n) (Z.pos qd))) in *.
    set (e := snd (round_pos beta prec (Z.pos n) (Z.pos qd))) in *.
    pose proof (pow_pos beta Hb (prec - 1) ltac:(lia)) as Hpp.
    exists (- m), e. split; [lia |].
    split; [apply fp_value_bpow; lia |].
    change (Qabs (Z.neg n # qd)) with (Z.pos n # qd).
    rewrite (fp_value_bpow beta (- m) e) by lia.
    assert (Heq : (Qabs ((Z.neg n # qd) - inject_Z (- m) * bpow beta e) ==
                   Qabs ((Z.pos n # qd) - inject_Z m * bpow beta e))%Q).
    { rewrite <- (Qabs_opp ((Z.pos n # qd) - inject_Z m * bpow beta e)).
      apply Qabs_wd. rewrite inject_Z_opp.
      change (Z.neg n # qd) with (- (Z.pos n # qd))%Q. ring. }
    rewrite Heq, Z.even_opp. auto.
Qed.

(** A rounding keeps the sign of what it rounds. *)
Lemma rounded_to_pos beta prec q r :
  2 <= beta -> 1 <= prec -> rounded_to beta prec q r -> (0 < q)%Q -> (0 < r)%Q.
Proof.
  intros Hb Hp [[Hq _] | (m & e & _ & Hr & Hlo & _ & Hnear & _)] Hpos.
  - rewrite Hq in Hpos. discriminate.
  - rewrite (Qabs_pos q) in Hlo by (apply Qlt_le_weak; exact Hpos).
    pose proof (bpow_pos beta e ltac:(lia)) as HB.
    pose proof (Qle_Qabs (q - r)) as Habs.
    assert (H1 : (1 * bpow beta e <= inject_Z (beta ^ (prec - 1)) * bpow beta e)%Q).
    { apply Qmult_le_compat_r; [| apply Qlt_le_weak; exact HB].
      change 1%Q with (inject_Z 1). rewrite <- Zle_Qle.
      pose proof (pow_pos beta Hb (prec - 1) ltac:(lia)). lia. }
    lra.
Qed.

End RoundFacts.

(** ** Floats and decimals *)

Module NumberFacts.
Import Round RoundFacts.

Lemma to_int_Qfloor x : (0 <= x)%Q -> Float.to_int x = Qfloor x.
Proof.
  destruct x as [n d]. unfold Qle, Float.to_int, Qfloor; cbn. intros H.
  apply Z.quot_div_nonneg; lia.
Qed.

Lemma to_int_fp_value m e :
  0 <= m -> e < 0 -> Float.to_int (fp_value 2 m e) = m / 2 ^ (- e).
Proof.
  intros Hm He. unfold fp_value.
  destruct (Z.leb_spec 0 e) as [Hge | _]; [lia |].
  assert (Hpos : 0 < 2 ^ (- e)) by (apply Z.pow_pos_nonneg; lia).
  rewrite to_int_Qfloor.
  - rewrite (Qfloor_comp _ _ (Qred_correct _)). cbn.
    rewrite Z2Pos.id by exact Hpos. reflexivity.
  - rewrite Qred_correct. unfold Qle; cbn. lia.
Qed.

(** Below [2 ^ 34] the spacing of binary64 values is smaller than one
    millionth, so truncating the rounded quotient gives the integer
    quotient. *)
Lemma to_int_truediv_million n :
  0 <= n < 2 ^ 34 * 1000000 ->
  Float.to_int (Float.int_truediv n 1000000) = n / 1000000.
Proof.
  intros [Hlo Hhi]. unfold Float.int_truediv, Float.rn, round_sig, round_sig_repr.
  destruct n as [| p | p]; [reflexivity | | lia].
  change (Qnum (inject_Z (Z.pos p) / inject_Z 1000000)) with (Z.pos (p * 1)).
  change (Qden (inject_Z (Z.pos p) / inject_Z 1000000)) with (1000000%positive).
  rewrite Pos.mul_1_r.
  pose proof (round_pos_spec 2 (Z.pos p) 1000000 ltac:(lia) ltac:(lia) ltac:(lia)
                53 ltac:(lia)) as (HD & [HNlo HNhi] & Hm & Hnear & _).
  cbn zeta in *.
  rewrite (surjective_pairing (round_pos 2 53 (Z.pos p) 1000000)).
  set (m := fst (round_pos 2 53 (Z.pos p) 1000000)) in *.
  set (e := snd (round_pos 2 53 (Z.pos p) 1000000)) in *.
  unfold scale in *; cbn [fst snd] in *.
  assert (He : e <= -19).
  { destruct (Z_le_gt_dec e (-19)) as [| Hgt]; [assumption | exfalso].
    assert (H1 : 2 ^ Z.max 0 (- e) <= 2 ^ 18) by (apply Z.pow_le_mono_r; lia).
    assert (H2 : 0 < 2 ^ Z.max 0 e) by (apply Z.pow_pos_nonneg; lia).
    change (2 ^ 18) with 262144 in H1.
    change (2 ^ (53 - 1)) with 4503599627370496 in HNlo.
    change (2 ^ 34 * 1000000) with 17179869184000000 in Hhi.
    nia. }
  rewrite (Z.max_r 0 (- e)), (Z.max_l 0 e) in * by lia.
  rewrite Z.pow_0_r, Z.mul_1_r in *.
  assert (HP : 2 ^ 19 <= 2 ^ (- e)) by (apply Z.pow_le_mono_r; lia).
  change (2 ^ 19) with 524288 in HP.
  change (2 ^ (53 - 1)) with 4503599627370496 in *.
  rewrite to_int_fp_value by lia.
  set (P := 2 ^ (- e)) in *.
  pose proof (Z.div_mod (Z.pos p) 1000000 ltac:(lia)) as Hdm.
  pose proof (Z.mod_pos_bound (Z.pos p) 1000000 ltac:(lia)) as Hr.
  set (k := Z.pos p / 1000000) in *. set (r := Z.pos p mod 1000000) in *.
  symmetry. apply (Z.div_unique_pos m P k (m - k * P)); nia.
Qed.

Lemma round_sig_zero beta prec q : Qnum q = 0 -> round_sig beta prec q = 0%Q.
Proof.
  intros H. unfold round_sig, round_sig_repr. rewrite H.
  unfold fp_value. cbn. reflexivity.
Qed.

Lemma Float_sub_diag t : Float.sub t t = 0%Q.
Proof.
  unfold Float.sub, Float.rn. apply round_sig_zero.
  destruct t as [n d]. cbn. lia.
Qed.

Lemma Float_sub_pos a b : (b < a)%Q -> (0 < Float.sub a b)%Q.
Proof.
  intros H. unfold Float.sub, Float.rn.
  apply (rounded_to_pos 2 53 (a - b)); [lia | lia | | lra].
  apply round_sig_spec; lia.
Qed.

Lemma Decimal_div_zero a : exists e, Decimal.div a 0 = Raise e.
Proof.
  unfold Decimal.div. cbn. destruct (Qeq_bool a 0); eauto.
Qed.

Lemma Decimal_div_ok a b :
  ~ (b == 0)%Q ->
  exists d, Decimal.div a b = Ok d /\ rounded_to 10 2 (a / b) d.
Proof.
  intros Hb. unfold Decimal.div.
  destruct (Qeq_bool b 0) eqn:E.
  - apply Qeq_bool_eq in E. contradiction.
  - eexists. split; [reflexivity |]. apply round_sig_spec; unfold Decimal.prec; lia.
Qed.

End NumberFacts.

(** ** The rate store *)

Section Rate.
Import NumberFacts.
Local Open Scope string_scope.

Lemma rate_zero_elapsed key value st lvalue :
  last st !! key = Some (time_time (host st), lvalue) ->
  exists e, rate key value st = (Raise e, st).
Proof.
  intros H. unfold rate, bind, gets, set_last, ret, lift. rewrite H.
  unfold Decimal.of_float. rewrite Float_sub_diag.
  destruct (Decimal_div_zero (Float.sub value lvalue)) as [e ->]. eauto.
Qed.

End Rate.

(** C6.  The first call of [rate] for a key, one that [last] does not hold
    yet, returns [0.0], raises nothing, and stores the pair of the clock
    reading and the value under the key. *)
Theorem rate_first_call key value st :
  last st !! key = None ->
  rate key value st =
    (Ok 0%Q, with_last (<[key := (time_time (host st), value)]> (last st)) st).
Proof.
  intros H. unfold rate, bind, gets, set_last, ret. rewrite H. reflexivity.
Qed.

Lemma rate_first_call_witness :
  last (initial_state example_host) !! "upload"%string = None /\
  rate "upload" 5000 (initial_state example_host) =
    (Ok 0%Q,
     with_last (<["upload"%string := (100%Q, 5000%Q)]> ∅) (initial_state example_host)).
Proof.
  split; [reflexivity |].
  apply (rate_first_call "upload" 5000 (initial_state example_host)). reflexivity.
Defined.

(** C10.  A call [rate(key, value)] leaves the entry of [last] for every
    other key as it was, whether the call returns or raises. *)
Theorem rate_frame key value k st :
  k <> key -> last (snd (rate key value st)) !! k = last st !! k.
Proof.
  intros Hne. unfold rate, bind, gets, set_last, ret, lift.
  destruct (last st !! key) as [[ltime lvalue] |].
  - destruct (Decimal.div _ _); cbn; [| reflexivity].
    apply lookup_insert_ne. congruence.
  - cbn. apply lookup_insert_ne. congruence.
Qed.

Lemma rate_frame_witness :
  "download"%string <> "upload"%string /\
  last (snd (rate "upload" 5002
               (with_last example_last (initial_state example_host_busy))))
    !! "download"%string = Some (100%Q, 7000%Q).
Proof.
  assert (Hne : "download"%string <> "upload"%string) by discriminate.
  split; [exact Hne |].
  rewrite (rate_frame "upload" 5002 "download"
             (with_last example_last (initial_state example_host_busy)) Hne).
  reflexivity.
Defined.

(** C4, as stated, fails.  "upload" was sampled at 5 bytes when the clock
    read 100 and is sampled at 1,250,005 bytes when it reads 10100.  The
    quotient of the two arguments' difference by the elapsed time is a
    little above 0.125 and rounds to 0.13; the float subtraction gives
    exactly 1250.0, the Decimal division 0.125 rounded to even, and [rate]
    returns the float of 0.12. *)
Lemma rate_rounds_float_difference :
  let v1 := Float.int_truediv 5 1000 in
  let v2 := Float.int_truediv 1250005 1000 in
  let x := (1080863910568919 # 9007199254740992)%Q in
  Round.rounded_to 10 2 ((v2 - v1) / (10100 - 100)) 0.13 /\
  rate "upload" v2 (with_last example_last_quiet (initial_state example_host_quiet)) =
    (Ok x,
     with_last (<["upload"%string := (10100%Q, v2)]> example_last_quiet)
       (initial_state example_host_quiet)) /\
  Round.rounded_to 2 53 0.12 x /\
  (x < 0.121)%Q.
Proof.
  cbn zeta. split; [| split; [| split]].
  - assert (E : Round.round_sig 10 2
                  ((Float.int_truediv 1250005 1000 - Float.int_truediv 5 1000) /
                   (10100 - 100)) = 0.13%Q) by (vm_compute; reflexivity).
    rewrite <- E. apply RoundFacts.round_sig_spec; lia.
  - vm_compute. reflexivity.
  - assert (E : Round.round_sig 2 53 0.12 = (1080863910568919 # 9007199254740992)%Q)
      by (vm_compute; reflexivity).
    rewrite <- E. apply RoundFacts.round_sig_spec; lia.
  - reflexivity.
Qed.

(** C4, amended.  When [last] holds [(ltime, lvalue)] for the key and the
    clock now reads later than [ltime], [rate(key, value)] returns the
    float [x] nearest to the decimal [d], where [d] is the quotient
    [dv / dt] rounded to 2 significant decimal digits (ties to even) and
    [dv] and [dt] are the float differences: [value - lvalue] and
    [now - ltime], each rounded to a float.  It overwrites the entry of
    the key with [(now, value)]. *)
Theorem rate_next_call key value st ltime lvalue :
  last st !! key = Some (ltime, lvalue) ->
  (ltime < time_time (host st))%Q ->
  exists dv dt d x : Q,
    Round.rounded_to 2 53 (value - lvalue) dv /\
    Round.rounded_to 2 53 (time_time (host st) - ltime) dt /\
    (0 < dt)%Q /\
    Round.rounded_to 10 2 (dv / dt) d /\
    Round.rounded_to 2 53 d x /\
    rate key value st =
      (Ok x, with_last (<[key := (time_time (host st), value)]> (last st)) st).
Proof.
  intros H Hlt. unfold rate, bind, gets, set_last, ret, lift. rewrite H.
  unfold Decimal.of_float.
  pose proof (NumberFacts.Float_sub_pos _ _ Hlt) as Hp.
  destruct (NumberFacts.Decimal_div_ok (Float.sub value lvalue)
              (Float.sub (time_time (host st)) ltime)) as (d & -> & Hd).
  { intros E. rewrite E in Hp. discriminate. }
  exists (Float.sub value lvalue), (Float.sub (time_time (host st)) ltime), d,
    (Decimal.to_float d).
  split; [apply RoundFacts.round_sig_spec; lia |].
  split; [apply RoundFacts.round_sig_spec; lia |].
  split; [exact Hp |]. split; [exact Hd |].
  split; [apply RoundFacts.round_sig_spec; lia | reflexivity].
Qed.

Lemma rate_next_call_witness :
  exists dv dt d x : Q,
    Round.rounded_to 2 53 (5002 - 5000) dv /\
    Round.rounded_to 2 53 (1400000 - 100) dt /\
    (0 < dt)%Q /\
    Round.rounded_to 10 2 (dv / dt) d /\
    Round.rounded_to 2 53 d x /\
    rate "upload" 5002 (with_last example_last (initial_state example_host_busy)) =
      (Ok x,
       with_last (<["upload"%string := (1400000%Q, 5002%Q)]> example_last)
         (initial_state example_host_busy)).
Proof.
  apply (rate_next_call "upload" 5002
           (with_last example_last (initial_state example_host_busy)) 100 5000).
  - reflexivity.
  - reflexivity.
Defined.

(** C1.  [last] holds an entry for "upload" taken when the clock read 100;
    the clock still reads 100 at the next call.  The call raises
    [decimal.DivisionByZero] and leaves the state as it was: no fallback
    value is returned. *)
Theorem rate_same_timestamp_raises :
  rate "upload" 5002 (with_last example_last (initial_state example_host_later)) =
    (Raise DivisionByZero,
     with_last example_last (initial_state example_host_later)).
Proof. vm_compute. reflexivity. Qed.

(** ** The byte counters *)

(** C5, as stated, fails.  With 17,179,869,184,999,999 bytes sent the
    sampling function of "bytes_sent" returns 17,179,869,185, while the
    integer quotient of the counter by 1,000,000 is 17,179,869,184: the
    float nearest to 17179869184.999999 is 17179869185.0. *)
Lemma bytes_sent_rounds_up :
  exists entry,
    Dict.get fixed_properties "bytes_sent" = Some entry /\
    call entry (initial_state example_host_busy) =
      (Ok (VInt 17179869185), initial_state example_host_busy) /\
    bytes_sent example_host_busy / 1000000 = 17179869184.
Proof.
  eexists. split; [reflexivity |]. split; vm_compute; reflexivity.
Qed.

(** C5, amended.  For counters below 2^34 * 1,000,000 =
    17,179,869,184,000,000 the sampling functions of "bytes_sent" and
    "bytes_recv" return the integer quotient of the counter by 1,000,000
    and change nothing. *)
Theorem bytes_counters_integer_division sent recv st :
  Dict.get fixed_properties "bytes_sent" = Some sent ->
  Dict.get fixed_properties "bytes_recv" = Some recv ->
  0 <= bytes_sent (host st) < 2 ^ 34 * 1000000 ->
  0 <= bytes_recv (host st) < 2 ^ 34 * 1000000 ->
  call sent st = (Ok (VInt (bytes_sent (host st) / 1000000)), st) /\
  call recv st = (Ok (VInt (bytes_recv (host st) / 1000000)), st).
Proof.
  intros Hs Hr Hbs Hbr.
  injection Hs as <-. injection Hr as <-.
  unfold call, bind, gets, ret.
  rewrite !NumberFacts.to_int_truediv_million by assumption.
  split; reflexivity.
Qed.

Lemma bytes_counters_integer_division_witness :
  exists sent recv,
    Dict.get fixed_properties "bytes_sent" = Some sent /\
    Dict.get fixed_properties "bytes_recv" = Some recv /\
    call sent (initial_state example_host) =
      (Ok (VInt 5), initial_state example_host) /\
    call recv (initial_state example_host) =
      (Ok (VInt 7), initial_state example_host).
Proof.
  eexists. eexists. split; [reflexivity |]. split; [reflexivity |].
  apply (bytes_counters_integer_division _ _ (initial_state example_host)
           eq_refl eq_refl).
  - cbn. lia.
  - cbn. lia.
Defined.

Local Open Scope string_scope.

(** ** Dictionaries *)

Module DictFacts.

Lemma get_set_eq {V} (d : Dict.t V) k v : Dict.get (Dict.set d k v) k = Some v.
Proof.
  induction d as [| [k' v'] d IH]; cbn.
  - rewrite String.eqb_refl. reflexivity.
  - destruct (String.eqb k' k) eqn:E; cbn; rewrite E; auto.
Qed.

Lemma get_set_ne {V} (d : Dict.t V) k k' v :
  k <> k' -> Dict.get (Dict.set d k v) k' = Dict.get d k'.
Proof.
  intros Hne. induction d as [| [k0 v0] d IH]; cbn.
  - destruct (String.eqb_spec k k'); [contradiction | reflexivity].
  - destruct (String.eqb_spec k0 k) as [-> | Hk0]; cbn.
    + destruct (String.eqb_spec k k'); [contradiction | reflexivity].
    + destruct (String.eqb k0 k'); auto.
Qed.

Lemma get_keys {V} (d : Dict.t V) k :
  k ∈ Dict.keys d -> is_Some (Dict.get d k).
Proof.
  unfold Dict.keys. induction d as [| [k' v'] d IH]; cbn; intros H.
  - inversion H.
  - destruct (String.eqb_spec k' k) as [-> | Hne]; [eauto |].
    apply IH. apply elem_of_cons in H as [-> | H]; [contradiction | exact H].
Qed.

(** Assigning to a key keeps the keys unique. *)
Lemma keys_set {V} (d : Dict.t V) k v :
  Dict.keys (Dict.set d k v) =
    if bool_decide (k ∈ Dict.keys d) then Dict.keys d else (Dict.keys d ++ [k])%list.
Proof.
  unfold Dict.keys. induction d as [| [k' v'] d IH]; cbn.
  - reflexivity.
  - destruct (String.eqb_spec k' k) as [-> | Hne]; cbn.
    + rewrite bool_decide_eq_true_2 by apply list_elem_of_here. reflexivity.
    + rewrite IH. destruct (bool_decide (k ∈ map fst d)) eqn:E.
      * apply bool_decide_eq_true_1 in E.
        rewrite bool_decide_eq_true_2 by (apply list_elem_of_further; exact E).
        reflexivity.
      * apply bool_decide_eq_false_1 in E.
        rewrite bool_decide_eq_false_2; [reflexivity |].
        intros H. apply elem_of_cons in H as [-> | H]; [congruence | contradiction].
Qed.

Lemma NoDup_keys_set {V} (d : Dict.t V) k v :
  NoDup (Dict.keys d) -> NoDup (Dict.keys (Dict.set d k v)).
Proof.
  intros H. rewrite keys_set. destruct (bool_decide (k ∈ Dict.keys d)) eqn:E.
  - exact H.
  - apply bool_decide_eq_false_1 in E. apply NoDup_app. repeat split.
    + exact H.
    + intros x Hx Hx'. apply list_elem_of_singleton in Hx'. subst. contradiction.
    + apply NoDup_singleton.
Qed.

End DictFacts.

(** ** The metric registry *)

Section Registry.
Import DictFacts.

Lemma temperature_loop_eq names : forall properties st,
  temperature_loop names properties st =
    (Ok (assign_all names properties),
     from_option (fun k => with_temp_sensor (Some k) st) st (list.last names)).
Proof.
  induction names as [| name names IH]; intros properties st.
  - reflexivity.
  - cbn [temperature_loop]. unfold bind, set_temp_sensor. rewrite IH. clear IH.
    cbn [assign_all fold_left]. f_equal.
    destruct names as [| name' names]; [reflexivity |].
    rewrite last_cons_cons.
    destruct (list.last (name' :: names)) eqn:E; [reflexivity |].
    apply last_None in E. discriminate.
Qed.

Lemma assign_all_get names : forall properties g,
  g ∈ names -> Dict.get (assign_all names properties) g = Some temperature_entry.
Proof.
  induction names as [| name names IH] using rev_ind; intros properties g Hg.
  - inversion Hg.
  - unfold assign_all. rewrite fold_left_app. cbn.
    destruct (decide (name = g)) as [-> | Hne].
    + apply get_set_eq.
    + rewrite get_set_ne by exact Hne. apply IH.
      apply elem_of_app in Hg as [Hg | Hg]; [exact Hg |].
      apply list_elem_of_singleton in Hg. congruence.
Qed.

Lemma assign_all_NoDup names : forall properties,
  NoDup (Dict.keys properties) -> NoDup (Dict.keys (assign_all names properties)).
Proof.
  induction names as [| name names IH]; intros properties H; [exact H |].
  cbn. apply IH. apply NoDup_keys_set. exact H.
Qed.

Lemma assign_all_keys names : forall properties g,
  g ∈ Dict.keys (assign_all names properties) <-> g ∈ Dict.keys properties \/ g ∈ names.
Proof.
  unfold assign_all.
  induction names as [| name names IH]; intros properties g; cbn [fold_left].
  - split; [auto | intros [H | H]; [exact H | inversion H]].
  - rewrite IH, keys_set. destruct (bool_decide (name ∈ Dict.keys properties)) eqn:E.
    + apply bool_decide_eq_true_1 in E. rewrite elem_of_cons.
      split; [tauto | intros [H | [-> | H]]; auto].
    + rewrite elem_of_app, list_elem_of_singleton, elem_of_cons. tauto.
Qed.
End Registry.

Lemma load_properties_eq st :
  load_properties st =
    if has_sensors_temperatures (host st) then
      (Ok (assign_all (Dict.keys (sensors_temperatures (host st))) fixed_properties),
       from_option (fun k => with_temp_sensor (Some k) st) st
         (list.last (Dict.keys (sensors_temperatures (host st)))))
    else (Ok fixed_properties, st).
Proof.
  unfold load_properties, bind, gets, ret.
  destruct (has_sensors_temperatures (host st)); [| reflexivity].
  apply temperature_loop_eq.
Qed.

(** The part of C3 that holds: one entry per sensor group, under its name. *)
Lemma load_properties_groups st properties st' g :
  has_sensors_temperatures (host st) = true ->
  load_properties st = (Ok properties, st') ->
  g ∈ Dict.keys (sensors_temperatures (host st)) ->
  NoDup (Dict.keys properties) /\
  Dict.get properties g = Some temperature_entry.
Proof.
  intros Hhas Hload Hg. rewrite load_properties_eq, Hhas in Hload.
  injection Hload as <- <-. split.
  - apply assign_all_NoDup.
    apply (bool_decide_unpack (NoDup (Dict.keys fixed_properties))).
    vm_compute. exact I.
  - apply assign_all_get. exact Hg.
Qed.

(** Every temperature entry samples the group that the loop visited last. *)
Lemma temperature_call_last st properties st' g current rest :
  has_sensors_temperatures (host st) = true ->
  load_properties st = (Ok properties, st') ->
  list.last (Dict.keys (sensors_temperatures (host st))) = Some g ->
  Dict.get (sensors_temperatures (host st)) g = Some (current :: rest) ->
  call temperature_entry st' = (Ok (VFloat current), st').
Proof.
  intros Hhas Hload Hlast Hget. rewrite load_properties_eq, Hhas, Hlast in Hload.
  injection Hload as <- <-. cbn.
  unfold temperature_call, bind, gets, ret. cbn. rewrite Hget. reflexivity.
Qed.

(** C3.  On a host with the sensor groups "coretemp" (42 degrees) and
    "acpitz" (27.8 degrees) the registry has an entry under each name, but
    the sampling function of the entry "coretemp" returns 27.8, the
    temperature of "acpitz": the lambda of line 100 reads [temp_sensor]
    when it is called, after the loop has left it at the last group. *)
Theorem coretemp_entry_samples_acpitz :
  exists properties st entry,
    load_properties (initial_state example_host) = (Ok properties, st) /\
    Dict.get properties "coretemp" = Some entry /\
    Dict.get (sensors_temperatures (host st)) "coretemp" = Some [42%Q; 40%Q] /\
    Dict.get (sensors_temperatures (host st)) "acpitz" = Some [27.8%Q] /\
    call entry st = (Ok (VFloat 27.8), st).
Proof.
  do 3 eexists. split; [reflexivity |]. repeat split; reflexivity.
Qed.

(** ** The discovery record builder *)

Lemma copy_optional_ok names sensor properties entry : forall config,
  Dict.get properties sensor = Some entry ->
  copy_optional names sensor properties config =
    Ok (fold_left (fun c attr => match attrs entry !! attr with
                                 | Some v => Dict.set c attr (JStr v)
                                 | None => c
                                 end) names config).
Proof.
  intros config H. revert config.
  induction names as [| attr names IH]; intros config; cbn; [reflexivity |].
  rewrite H. destruct (attrs entry !! attr); apply IH.
Qed.



(** ** The connect callback *)

Lemma for_each_app {A} (l1 l2 : list A) body st :
  for_each (l1 ++ l2) body st =
    bind (for_each l1 body) (fun _ => for_each l2 body) st.
Proof.
  revert st. induction l1 as [| x l1 IH]; intros st; cbn.
  - reflexivity.
  - unfold bind in *. destruct (body x st) as [[[] | e] st1]; [apply IH | reflexivity].
Qed.

Lemma publish_discovery_each properties ha_prefix base_topic ks : forall st,
  (forall k, k ∈ ks -> is_Some (Dict.get properties k)) ->
  exists records,
    for_each ks (publish_discovery properties ha_prefix base_topic) st =
      (Ok tt, with_published (published st ++ records) st) /\
    Forall2 (is_discovery properties ha_prefix base_topic (host st)) ks records.
Proof.
  induction ks as [| k ks IH]; intros st Hks.
  - exists []. split; [| constructor].
    cbn. unfold ret. rewrite app_nil_r. destruct st; reflexivity.
  - destruct (Hks k (list_elem_of_here _ _)) as [entry Hentry].
    pose proof (copy_optional_ok OPTIONAL_ATTR k properties entry
                  (json_config (host st) k base_topic) Hentry) as Hcopy.
    set (config := fold_left _ _ _) in Hcopy.
    set (m := {| topic := HA_DISCOVERY_PREFIX ha_prefix (slugify (node (host st))) k;
                 payload := VJsonText (JObj config); retain := true |}).
    destruct (IH (with_published (published st ++ [m]) st)) as (records & Hrun & Hall).
    { intros k' Hk'. apply Hks. apply list_elem_of_further. exact Hk'. }
    exists (m :: records). split.
    + cbn [for_each]. unfold bind at 1.
      unfold publish_discovery at 1, gen_ha_config, bind, gets, lift, ret, publish.
      rewrite Hcopy. fold m. rewrite Hrun. cbn. rewrite <- app_assoc. reflexivity.
    + constructor; [| exact Hall].
      split; [reflexivity |]. split; [reflexivity |]. exists config. auto.
Qed.

(** C7.  Whatever the flags and the result code, [on_connect] raises
    nothing and appends to the published messages, first, "online",
    retained, on "<base_topic>/status", and then, for each key of the
    registry in order, one retained message on
    "<prefix>/sensor/ps2mqtt_<slug of the host name>/<key>/config" whose
    payload is what [gen_ha_config] returns for that key. *)
Theorem on_connect_publishes properties ha_prefix base_topic flags rc st :
  exists records : list Message,
    on_connect (properties, ha_prefix, base_topic) flags rc st =
      (Ok tt,
       with_published
         (published st ++
          {| topic := base_topic ++ "/status"; payload := VStr "online";
             retain := true |} :: records) st) /\
    Forall2
      (fun p m =>
         topic m = ha_prefix ++ "/sensor/ps2mqtt_" ++ slugify (node (host st)) ++
                   "/" ++ p ++ "/config" /\
         retain m = true /\
         gen_ha_config p properties base_topic st = (Ok (payload m), st))
      (Dict.keys properties) records.
Proof.
  set (online := {| topic := base_topic ++ "/status"; payload := VStr "online";
                    retain := true |}).
  destruct (publish_discovery_each properties ha_prefix base_topic
              (Dict.keys properties)
              (with_published (published st ++ [online]) st))
    as (records & Hrun & Hall).
  { intros k. apply DictFacts.get_keys. }
  exists records. split.
  - unfold on_connect, MQTT_PS2MQTT_STATUS, MQTT_AVAILABLE, bind at 1, publish.
    fold online. rewrite Hrun. cbn. rewrite <- app_assoc. reflexivity.
  - eapply Forall2_impl; [exact Hall |].
    intros p m (Ht & Hr & config & Hp & Hc). cbn [host with_published] in Ht, Hc.
    split; [exact Ht |]. split; [exact Hr |].
    unfold gen_ha_config, bind, gets, lift, ret. rewrite Hc, Hp. reflexivity.
Qed.

(** ** The scheduler tick *)

Lemma status_ok properties period base_topic st st1 :
  for_each (Dict.keys properties) (publish_metric properties base_topic) st = (Ok tt, st1) ->
  status properties period base_topic st =
    (Ok tt, with_queue (queue st1 ++ [{| delay := period; priority := 1 |}]) st1).
Proof.
  intros H. unfold status, bind. rewrite H. reflexivity.
Qed.

(** C2, as stated, fails.  The registry is the one [load_properties]
    builds and the first tick has run.  At the second wake-up the clock
    reads what it read at the first: the sampling function of "upload"
    raises, the exception leaves [run], the tick has published the five
    metrics before "upload" and none of "upload", "download", "coretemp",
    "acpitz", and the queue is empty, so that no third tick runs. *)
Lemma status_abandons_tick :
  exists properties st1 st2 st3,
    load_properties (initial_state example_host) = (Ok properties, st1) /\
    status properties 60 "ps2mqtt/media-box" st1 = (Ok tt, st2) /\
    run [example_host_later; example_host_later] properties 60 "ps2mqtt/media-box" st2 =
      (Raise DivisionByZero, st3) /\
    map topic (published st3) =
      (map topic (published st2) ++
       ["ps2mqtt/media-box/cpu_percent"; "ps2mqtt/media-box/virtual_memory";
        "ps2mqtt/media-box/uptime"; "ps2mqtt/media-box/bytes_sent";
        "ps2mqtt/media-box/bytes_recv"])%list /\
    queue st3 = [].
Proof.
  do 4 eexists. split; [reflexivity |]. split; [vm_compute; reflexivity |].
  split; [vm_compute; reflexivity |]. split; vm_compute; reflexivity.
Qed.

(** C2, amended.  A tick samples and publishes the metrics in the order of
    the registry.  When the sampling function of a metric raises, after
    the metrics before it were published, [status] raises the same
    exception in the state the sampling function left: nothing more is
    published on that tick and [enter] is not called. *)
Theorem status_stops_at_raise properties period base_topic st
    before p after entry e st1 st2 :
  Dict.keys properties = (before ++ p :: after)%list ->
  for_each before (publish_metric properties base_topic) st = (Ok tt, st1) ->
  Dict.get properties p = Some entry ->
  call entry st1 = (Raise e, st2) ->
  status properties period base_topic st = (Raise e, st2).
Proof.
  intros Hkeys Hbefore Hentry Hcall. unfold status. rewrite Hkeys.
  unfold bind at 1. rewrite for_each_app. unfold bind at 1. rewrite Hbefore.
  cbn [for_each]. unfold bind at 1. unfold publish_metric at 1, bind at 1.
  rewrite Hentry, Hcall. reflexivity.
Qed.

Lemma status_stops_at_raise_witness :
  exists st2,
    status fixed_properties 60 "ps2mqtt/media-box"
      (with_last example_last (initial_state example_host_later)) =
        (Raise DivisionByZero, st2) /\
    map topic (published st2) =
      ["ps2mqtt/media-box/cpu_percent"; "ps2mqtt/media-box/virtual_memory";
       "ps2mqtt/media-box/uptime"; "ps2mqtt/media-box/bytes_sent";
       "ps2mqtt/media-box/bytes_recv"] /\
    queue st2 = [].
Proof.
  eexists. split.
  - eapply (status_stops_at_raise fixed_properties 60 "ps2mqtt/media-box" _
              ["cpu_percent"; "virtual_memory"; "uptime"; "bytes_sent"; "bytes_recv"]
              "upload" ["download"]).
    + reflexivity.
    + vm_compute. reflexivity.
    + reflexivity.
    + vm_compute. reflexivity.
  - split; reflexivity.
Defined.

(** ** Unique identifiers *)

Section Slug.

Lemma string_app_inj (a x y : string) : a ++ x = a ++ y -> x = y.
Proof.
  induction a as [| c a IH]; cbn; intros H; [exact H |].
  injection H as H. auto.
Qed.

(** A text followed by a space and a second text: the slug of the first,
    then the slug of the second with a separator pending. *)
Lemma slugify_from_space a k : forall started pending,
  slugify_from started pending (a ++ " " ++ k) =
    slugify_from started pending a ++
    slugify_from (started || has_slug_char a) true k.
Proof.
  change (" " ++ k) with (String " " k).
  induction a as [| c a IH]; intros started pending.
  - cbn. rewrite orb_false_r. reflexivity.
  - change (String c a ++ String " " k) with (String c (a ++ String " " k)).
    cbn [slugify_from has_slug_char].
    destruct (is_slug_char (to_lower c)).
    + rewrite IH, !orb_true_r. cbn.
      destruct (started && pending); reflexivity.
    + rewrite IH. reflexivity.
Qed.

Lemma slugify_from_not_started pending k :
  slugify_from false pending k = slugify k.
Proof.
  unfold slugify. destruct k as [| c k]; [reflexivity |]. cbn.
  destruct (is_slug_char (to_lower c)); reflexivity.
Qed.

Lemma slugify_from_pending k :
  slugify_from true true k =
    match slugify k with
    | EmptyString => EmptyString
    | String c s => String "-" (String c s)
    end.
Proof.
  induction k as [| c k IH]; [reflexivity |].
  unfold slugify. cbn [slugify_from].
  destruct (is_slug_char (to_lower c)).
  - reflexivity.
  - rewrite IH, slugify_from_not_started. reflexivity.
Qed.

Lemma slugify_from_pending_inj started k1 k2 :
  slugify_from started true k1 = slugify_from started true k2 <->
  slugify k1 = slugify k2.
Proof.
  destruct started.
  - rewrite !slugify_from_pending.
    destruct (slugify k1), (slugify k2); split; intros H;
      try discriminate; try reflexivity; injection H; intros; subst; reflexivity.
  - rewrite !slugify_from_not_started. reflexivity.
Qed.

Lemma slugify_pair_inj a k1 k2 :
  slugify (a ++ " " ++ k1) = slugify (a ++ " " ++ k2) <-> slugify k1 = slugify k2.
Proof.
  unfold slugify at 1 2. rewrite !slugify_from_space.
  rewrite <- (slugify_from_pending_inj (false || has_slug_char a)).
  split; [apply string_app_inj | intros ->; reflexivity].
Qed.

Lemma is_slug_char_lower c : is_slug_char c = true -> to_lower c = c.
Proof.
  unfold is_slug_char, to_lower, is_upper. intros H.
  destruct ((65 <=? nat_of_ascii c)%nat && (nat_of_ascii c <=? 90)%nat) eqn:E;
    [| reflexivity].
  exfalso. apply andb_true_iff in E as [E1 E2].
  apply Nat.leb_le in E1, E2.
  apply orb_true_iff in H as [H | H]; apply andb_true_iff in H as [H1 H2];
    apply Nat.leb_le in H1, H2; lia.
Qed.

Lemma split_words_cons s : exists w ws, split_words s = w :: ws.
Proof.
  destruct s as [| c s]; cbn; [eauto |].
  destruct (is_slug_char (to_lower c)); [| eauto].
  destruct (split_words s); eauto.
Qed.

Lemma split_words_all_slug s : Forall (fun w => all_slug w = true) (split_words s).
Proof.
  induction s as [| c s IH]; cbn.
  - repeat constructor.
  - destruct (is_slug_char (to_lower c)) eqn:E.
    + destruct (split_words s) as [| w ws].
      * repeat constructor. cbn. rewrite E. reflexivity.
      * inversion IH as [| ? ? Hw Hws]; subst. constructor; [| exact Hws].
        cbn. rewrite E, Hw. reflexivity.
    + constructor; [reflexivity | exact IH].
Qed.

Lemma join_words_filter started ws :
  join_words started (List.filter nonempty ws) = join_words started ws.
Proof.
  revert started. induction ws as [| w ws IH]; intros started; [reflexivity |].
  destruct w as [| c w]; cbn; [apply IH |]. rewrite IH. reflexivity.
Qed.

(** The slug of the rest of a text, from its pieces. *)
Lemma slugify_from_join s : forall started pending,
  slugify_from started pending s =
    match split_words s with
    | EmptyString :: ws => join_words started ws
    | w :: ws => (if started && pending then "-" else "") ++ w ++ join_words true ws
    | [] => EmptyString
    end.
Proof.
  induction s as [| c s IH]; intros started pending; [reflexivity |].
  cbn [slugify_from split_words].
  destruct (is_slug_char (to_lower c)).
  - rewrite (IH true false).
    destruct (split_words_cons s) as (w & ws & ->).
    destruct (started && pending), w; reflexivity.
  - rewrite (IH started true).
    destruct (split_words_cons s) as (w & ws & ->).
    destruct w; [reflexivity |]. cbn [join_words].
    rewrite andb_true_r. reflexivity.
Qed.

(** The slug of a text is its words joined by "-". *)
Lemma slugify_join s : slugify s = join_words false (slug_words s).
Proof.
  unfold slugify, slug_words. rewrite slugify_from_join, join_words_filter.
  destruct (split_words_cons s) as (w & ws & ->).
  destruct w; reflexivity.
Qed.

Lemma split_words_app w r :
  all_slug w = true ->
  split_words (w ++ r) =
    match split_words r with
    | hd :: tl => (w ++ hd) :: tl
    | [] => [w]
    end.
Proof.
  induction w as [| c w IH]; intros H.
  - change ("" ++ r) with r. destruct (split_words_cons r) as (hd & tl & ->).
    reflexivity.
  - cbn in H. apply andb_true_iff in H as [Hc Hw].
    change (String c w ++ r) with (String c (w ++ r)). cbn [split_words].
    rewrite (is_slug_char_lower c Hc), Hc, (IH Hw).
    destruct (split_words r); reflexivity.
Qed.

Lemma string_app_nil (w : string) : w ++ "" = w.
Proof.
  induction w as [| c w IH]; [reflexivity |].
  change (String c w ++ "") with (String c (w ++ "")). rewrite IH. reflexivity.
Qed.

Lemma split_words_join ws :
  Forall (fun w => all_slug w = true) ws ->
  exists tl,
    split_words (join_words true ws) = "" :: tl /\
    List.filter nonempty tl = List.filter nonempty ws.
Proof.
  induction ws as [| w ws IH]; intros H.
  - exists []. split; reflexivity.
  - inversion H as [| ? ? Hw Hws]; subst. destruct (IH Hws) as (tl & Htl & Hf).
    destruct w as [| c w]; [exists tl; split; [exact Htl | exact Hf] |].
    cbn [join_words].
    change ("-" ++ String c w ++ join_words true ws)
      with (String "-" (String c w ++ join_words true ws)).
    cbn [split_words].
    change (is_slug_char (to_lower "-")) with false. cbn iota.
    rewrite (split_words_app _ _ Hw), Htl, string_app_nil.
    eexists. split; [reflexivity |]. cbn. rewrite Hf. reflexivity.
Qed.

Lemma slug_words_join ws :
  Forall (fun w => all_slug w = true) ws ->
  List.filter nonempty ws = ws ->
  List.filter nonempty (split_words (join_words false ws)) = ws.
Proof.
  intros Hgood Hne. destruct ws as [| w ws']; [reflexivity |].
  inversion Hgood as [| ? ? Hw Hws]; subst.
  destruct w as [| c w].
  { exfalso. apply (f_equal (@List.length string)) in Hne. cbn in Hne.
    pose proof (List.filter_length_le nonempty ws'). lia. }
  cbn [join_words]. change ("" ++ String c w ++ join_words true ws')
    with (String c w ++ join_words true ws').
  destruct (split_words_join ws' Hws) as (tl & Htl & Hf).
  rewrite (split_words_app _ _ Hw), Htl, string_app_nil.
  cbn [List.filter nonempty]. rewrite Hf.
  cbn [List.filter nonempty] in Hne. injection Hne as Hne. rewrite Hne. reflexivity.
Qed.

(** The words of a slug are the words of the text. *)
Lemma slug_words_slugify s : slug_words (slugify s) = slug_words s.
Proof.
  rewrite slugify_join. unfold slug_words. apply slug_words_join.
  - apply List.Forall_forall. intros w Hw. apply filter_In in Hw as [Hw _].
    revert w Hw. apply List.Forall_forall. apply split_words_all_slug.
  - induction (split_words s) as [| w l IH]; [reflexivity |].
    cbn. destruct (nonempty w) eqn:E; [| exact IH]. cbn. rewrite E, IH. reflexivity.
Qed.

(** Two texts have the same slug exactly when they have the same words. *)
Lemma slugify_eq_words k1 k2 : slugify k1 = slugify k2 <-> slug_words k1 = slug_words k2.
Proof.
  split; intros H.
  - rewrite <- (slug_words_slugify k1), <- (slug_words_slugify k2), H. reflexivity.
  - rewrite !slugify_join, H. reflexivity.
Qed.

End Slug.

Lemma fixed_keys_slugs_distinct : NoDup (map slugify (Dict.keys fixed_properties)).
Proof.
  apply (bool_decide_unpack (NoDup (map slugify (Dict.keys fixed_properties)))).
  vm_compute. exact I.
Qed.

(** C9, as stated, fails.  "cpu_thermal" and "cpu-thermal" are two keys;
    on one host their payloads carry the same unique identifier. *)
Lemma unique_id_collision :
  "cpu_thermal" <> "cpu-thermal" /\
  Dict.get (json_config example_host "cpu_thermal" "ps2mqtt/media-box") "unique_id" =
  Dict.get (json_config example_host "cpu-thermal" "ps2mqtt/media-box") "unique_id".
Proof. split; [discriminate | vm_compute; reflexivity]. Qed.

(** C9, amended.  On one host, the unique identifiers in the payloads of
    two metric keys are equal exactly when the two keys have the same
    words, a word being a maximal run of letters and digits taken in lower
    case.  So two keys that differ only in letter case or in the
    characters between their words share an identifier, and two keys
    whose words differ never do. *)
Theorem unique_id_distinct_iff h base_topic k1 k2 :
  (Dict.get (json_config h k1 base_topic) "unique_id" =
     Dict.get (json_config h k2 base_topic) "unique_id" <->
   slug_words k1 = slug_words k2) /\
  (Dict.get (json_config h k1 base_topic) "unique_id" <>
     Dict.get (json_config h k2 base_topic) "unique_id" <->
   slug_words k1 <> slug_words k2).
Proof.
  change (Dict.get (json_config h k1 base_topic) "unique_id")
    with (Some (JStr (slugify (node h ++ " " ++ k1)))).
  change (Dict.get (json_config h k2 base_topic) "unique_id")
    with (Some (JStr (slugify (node h ++ " " ++ k2)))).
  assert (Heq : Some (JStr (slugify (node h ++ " " ++ k1))) =
                  Some (JStr (slugify (node h ++ " " ++ k2))) <->
                slug_words k1 = slug_words k2).
  { rewrite <- slugify_eq_words, <- (slugify_pair_inj (node h) k1 k2).
    split; [intros E; injection E as E; exact E | intros ->; reflexivity]. }
  split; [exact Heq |]. rewrite Heq. reflexivity.
Qed.


(** * Further properties *)

Import Round RoundFacts NumberFacts DictFacts.

Ltac break_match :=
  repeat match goal with
         | |- context [match ?x with _ => _ end] => destruct x eqn:?
         end.

(** ** The rate store, continued *)

Lemma rounded_to_nonzero beta prec q r :
  2 <= beta -> 1 <= prec -> rounded_to beta prec q r -> ~ (q == 0)%Q -> ~ (r == 0)%Q.
Proof.
  intros Hb Hp [[Hq _] | (m & e & _ & Hr & Hlo & _ & Hnear & _)] Hnz Hz.
  - contradiction.
  - pose proof (bpow_pos beta e ltac:(lia)) as HB.
    assert (H1 : (1 * bpow beta e <= inject_Z (beta ^ (prec - 1)) * bpow beta e)%Q).
    { apply Qmult_le_compat_r; [| apply Qlt_le_weak; exact HB].
      change 1%Q with (inject_Z 1). rewrite <- Zle_Qle.
      pose proof (pow_pos beta Hb (prec - 1) ltac:(lia)). lia. }
    assert (Hqr : (Qabs (q - r) == Qabs q)%Q).
    { apply Qabs_wd. rewrite Hz. ring. }
    rewrite Hqr in Hnear. lra.
Qed.

Lemma Qnum_zero q : Qnum q = 0 <-> (q == 0)%Q.
Proof. destruct q as [n d]. unfold Qeq; cbn. lia. Qed.

Lemma round_sig_eq_zero beta prec q :
  2 <= beta -> 1 <= prec -> (round_sig beta prec q == 0)%Q <-> (q == 0)%Q.
Proof.
  intros Hb Hp. split; intros H.
  - destruct (Qeq_dec q 0) as [E | E]; [exact E | exfalso].
    exact (rounded_to_nonzero beta prec q _ Hb Hp (round_sig_spec beta prec q Hb Hp) E H).
  - rewrite (round_sig_zero beta prec q); [reflexivity |]. apply Qnum_zero. exact H.
Qed.

(** A float difference is zero exactly when the two floats are equal. *)
Lemma Float_sub_eq_zero a b : (Float.sub a b == 0)%Q <-> (a == b)%Q.
Proof.
  unfold Float.sub, Float.rn. rewrite round_sig_eq_zero by lia. split; intros H; lra.
Qed.

(** The two ways a call of [rate] can go. *)
Lemma rate_cases key value st :
  (clock_stalled key st /\
   exists e lvalue,
     (e = DivisionByZero \/ e = InvalidOperation) /\
     (exists ltime, last st !! key = Some (ltime, lvalue)) /\
     (e = InvalidOperation <-> (Float.sub value lvalue == 0)%Q) /\
     rate key value st = (Raise e, st)) \/
  (~ clock_stalled key st /\
   exists x, rate key value st =
     (Ok x, with_last (<[key := (time_time (host st), value)]> (last st)) st)).
Proof.
  unfold clock_stalled, rate, bind, gets, set_last, ret, lift,
    Decimal.of_float, Decimal.div.
  destruct (last st !! key) as [[ltime lvalue] |].
  - destruct (Qeq_bool (Float.sub (time_time (host st)) ltime) 0) eqn:E.
    + left. apply Qeq_bool_eq in E. apply (proj1 (Float_sub_eq_zero _ _)) in E. split.
      * exists ltime, lvalue. split; [reflexivity | symmetry; exact E].
      * destruct (Qeq_bool (Float.sub value lvalue) 0) eqn:E2.
        -- apply Qeq_bool_eq in E2. exists InvalidOperation, lvalue.
           split; [auto |]. split; [eauto |]. split; [tauto | reflexivity].
        -- apply Qeq_bool_neq in E2. exists DivisionByZero, lvalue.
           split; [auto |]. split; [eauto |].
           split; [split; [discriminate | contradiction] | reflexivity].
    + right. apply Qeq_bool_neq in E. rewrite Float_sub_eq_zero in E. split.
      * intros (lt' & lv' & Heq & Ht). injection Heq as <- <-.
        apply E. symmetry. exact Ht.
      * eexists. reflexivity.
  - right. split.
    + intros (lt' & lv' & Heq & _). discriminate.
    + eexists. reflexivity.
Qed.

(** X1.  [rate(key, value)] raises exactly when [last] holds a sample for
    the key whose time equals the present reading of the clock; a call
    that raises leaves the state as it was. *)
Theorem rate_raises_iff key value st :
  ((exists e, fst (rate key value st) = Raise e) <->
   (exists ltime lvalue,
      last st !! key = Some (ltime, lvalue) /\ (ltime == time_time (host st))%Q)) /\
  (forall e, fst (rate key value st) = Raise e -> snd (rate key value st) = st).
Proof.
  destruct (rate_cases key value st) as [[Hs (e & lv & _ & _ & _ & He)] | [Hns [x Hx]]].
  - rewrite He. cbn [fst snd]. split; [| reflexivity].
    split; [intros _; exact Hs | intros _; eauto].
  - rewrite Hx. cbn [fst snd]. split; [| discriminate].
    split; [intros [e He]; discriminate | intros Hs; contradiction].
Qed.

(** X2.  The only exceptions [rate] raises are those of the Decimal
    division: [InvalidOperation] when the value has not changed either
    (0 / 0), [DivisionByZero] otherwise; the state is left untouched. *)
Theorem rate_exception_kind key value st e st' :
  rate key value st = (Raise e, st') ->
  st' = st /\
  exists ltime lvalue,
    last st !! key = Some (ltime, lvalue) /\
    (e = InvalidOperation /\ (Float.sub value lvalue == 0)%Q \/
     e = DivisionByZero /\ ~ (Float.sub value lvalue == 0)%Q).
Proof.
  intros H.
  destruct (rate_cases key value st)
    as [[_ (e' & lv & Hk & [lt Hl] & Hiff & He)] | [_ [x Hx]]].
  - rewrite He in H. injection H as <- <-. split; [reflexivity |].
    exists lt, lv. split; [exact Hl |].
    destruct Hk as [-> | ->].
    + right. split; [reflexivity |]. intros Hz. apply Hiff in Hz. discriminate.
    + left. split; [reflexivity |]. apply Hiff. reflexivity.
  - rewrite Hx in H. discriminate.
Qed.

Lemma rate_exception_kind_witness :
  with_last example_last (initial_state example_host_later) =
    with_last example_last (initial_state example_host_later) /\
  exists ltime lvalue,
    last (with_last example_last (initial_state example_host_later)) !! "upload"%string =
      Some (ltime, lvalue) /\
    (DivisionByZero = InvalidOperation /\ (Float.sub 5002 lvalue == 0)%Q \/
     DivisionByZero = DivisionByZero /\ ~ (Float.sub 5002 lvalue == 0)%Q).
Proof.
  apply (rate_exception_kind "upload" 5002
           (with_last example_last (initial_state example_host_later))).
  vm_compute. reflexivity.
Defined.

(** X3.  When the counter has not moved since the last sample and the
    clock has, [rate] returns [0.0] and stores the new sample. *)
Theorem rate_unchanged_counter key value st ltime lvalue :
  last st !! key = Some (ltime, lvalue) ->
  (ltime < time_time (host st))%Q ->
  (value == lvalue)%Q ->
  rate key value st =
    (Ok 0%Q, with_last (<[key := (time_time (host st), value)]> (last st)) st).
Proof.
  intros H Hlt Hv. unfold rate, bind, gets, set_last, ret, lift. rewrite H.
  unfold Decimal.of_float, Decimal.div.
  destruct (Qeq_bool (Float.sub (time_time (host st)) ltime) 0) eqn:E.
  { apply Qeq_bool_eq in E. apply (proj1 (Float_sub_eq_zero _ _)) in E.
    rewrite E in Hlt. exfalso. exact (Qlt_irrefl _ Hlt). }
  assert (Hz : Float.sub value lvalue = 0%Q).
  { unfold Float.sub, Float.rn. apply round_sig_zero. apply Qnum_zero. lra. }
  rewrite Hz. reflexivity.
Qed.

Lemma rate_unchanged_counter_witness :
  rate "upload" 5000 (with_last example_last (initial_state example_host_busy)) =
    (Ok 0%Q,
     with_last (<["upload"%string := (1400000%Q, 5000%Q)]> example_last)
       (initial_state example_host_busy)).
Proof.
  apply (rate_unchanged_counter "upload" 5000
           (with_last example_last (initial_state example_host_busy)) 100 5000);
    reflexivity.
Defined.

(** X4.  When the clock has moved on, the decimal whose float [rate]
    returns is within one twentieth (5 per cent) of the exact quotient of
    the two float differences. *)
Theorem rate_within_five_percent key value st ltime lvalue :
  last st !! key = Some (ltime, lvalue) ->
  (ltime < time_time (host st))%Q ->
  exists d : Q,
    fst (rate key value st) = Ok (Decimal.to_float d) /\
    (Qabs (Float.sub value lvalue / Float.sub (time_time (host st)) ltime - d) * 20 <=
     Qabs (Float.sub value lvalue / Float.sub (time_time (host st)) ltime))%Q.
Proof.
  intros H Hlt. unfold rate, bind, gets, set_last, ret, lift. rewrite H.
  unfold Decimal.of_float.
  destruct (Decimal_div_ok (Float.sub value lvalue)
              (Float.sub (time_time (host st)) ltime)) as (d & -> & Hd).
  { intros E. pose proof (Float_sub_pos _ _ Hlt) as Hp. rewrite E in Hp. discriminate. }
  exists d. split; [reflexivity |].
  destruct Hd as [[Hq Hr] | (m & e & _ & Hr & Hlo & _ & Hnear & _)].
  - rewrite Hq, Hr. cbn. discriminate.
  - change (inject_Z (10 ^ (2 - 1))) with 10%Q in Hlo. lra.
Qed.

Lemma rate_within_five_percent_witness :
  exists d : Q,
    fst (rate "upload" 5002 (with_last example_last (initial_state example_host_busy))) =
      Ok (Decimal.to_float d) /\
    (Qabs (Float.sub 5002 5000 / Float.sub 1400000 100 - d) * 20 <=
     Qabs (Float.sub 5002 5000 / Float.sub 1400000 100))%Q.
Proof.
  apply (rate_within_five_percent "upload" 5002
           (with_last example_last (initial_state example_host_busy)) 100 5000);
    reflexivity.
Defined.

(** X5.  [rate] never removes a key from [last]: a key that has a sample
    before a call has one after it, whatever the call does. *)
Theorem rate_keeps_keys key value k st :
  is_Some (last st !! k) -> is_Some (last (snd (rate key value st)) !! k).
Proof.
  intros Hk. unfold rate, bind, gets, set_last, ret, lift.
  destruct (last st !! key) as [[ltime lvalue] |].
  - destruct (Decimal.div _ _); cbn; [| exact Hk].
    rewrite lookup_insert. case_decide; [eauto | exact Hk].
  - cbn. rewrite lookup_insert. case_decide; [eauto | exact Hk].
Qed.

Lemma rate_keeps_keys_witness :
  is_Some
    (last (snd (rate "upload" 5002
                  (with_last example_last (initial_state example_host_busy))))
       !! "download"%string).
Proof.
  apply (rate_keeps_keys "upload" 5002 "download"
           (with_last example_last (initial_state example_host_busy))).
  exists (100%Q, 7000%Q). reflexivity.
Defined.

(** ** The metric registry, continued *)

Lemma get_elem_of {V} (d : Dict.t V) k v : Dict.get d k = Some v -> (k, v) ∈ d.
Proof.
  induction d as [| [k' v'] d IH]; cbn; [discriminate |].
  destruct (String.eqb_spec k' k) as [-> | Hne].
  - intros [= ->]. apply list_elem_of_here.
  - intros H. apply list_elem_of_further. auto.
Qed.

Lemma assign_all_get_inv names : forall properties k entry,
  Dict.get (assign_all names properties) k = Some entry ->
  entry = temperature_entry \/ Dict.get properties k = Some entry.
Proof.
  induction names as [| name names IH] using rev_ind; intros properties k entry H.
  - right. exact H.
  - unfold assign_all in H. rewrite fold_left_app in H. cbn in H.
    destruct (decide (name = k)) as [-> | Hne].
    + rewrite get_set_eq in H. injection H as <-. left. reflexivity.
    + rewrite get_set_ne in H by exact Hne. apply IH. exact H.
Qed.

Lemma with_last_id st : with_last (last st) st = st.
Proof. destruct st; reflexivity. Qed.

Lemma rate_only_writes_last key value st :
  snd (rate key value st) = with_last (last (snd (rate key value st))) st.
Proof.
  unfold rate, bind, gets, set_last, ret, lift.
  destruct (last st !! key) as [[ltime lvalue] |].
  - destruct (Decimal.div _ _); cbn; [reflexivity | symmetry; apply with_last_id].
  - reflexivity.
Qed.

Lemma temperature_call_only_writes_last : only_writes_last temperature_call.
Proof.
  intros st. unfold temperature_call, bind, gets, ret, raise.
  destruct (temp_sensor st) as [k |]; [| symmetry; apply with_last_id].
  destruct (Dict.get (sensors_temperatures (host st)) k) as [[| current rest] |];
    symmetry; apply with_last_id.
Qed.

Lemma fixed_properties_only_write_last :
  Forall (fun kv => only_writes_last (call (snd kv))) fixed_properties.
Proof.
  unfold fixed_properties.
  cbv [Dict.of_list fold_left Dict.set fst snd String.eqb Ascii.eqb Bool.eqb].
  repeat constructor; intros st; cbn [snd call]; unfold bind, gets, ret;
    try (symmetry; apply with_last_id).
  - pose proof (rate_only_writes_last "upload"
                  (Float.int_truediv (bytes_sent (host st)) 1000) st) as H.
    destruct (rate "upload" _ st) as [[x | e] st1]; exact H.
  - pose proof (rate_only_writes_last "download"
                  (Float.int_truediv (bytes_recv (host st)) 1000) st) as H.
    destruct (rate "download" _ st) as [[x | e] st1]; exact H.
Qed.

Lemma load_properties_entries st properties st' k entry :
  load_properties st = (Ok properties, st') ->
  Dict.get properties k = Some entry ->
  entry = temperature_entry \/ Dict.get fixed_properties k = Some entry.
Proof.
  intros Hload Hget. rewrite load_properties_eq in Hload.
  destruct (has_sensors_temperatures (host st)); injection Hload as <- <-.
  - apply assign_all_get_inv in Hget. exact Hget.
  - right. exact Hget.
Qed.

Lemma registry_frames st properties st' k entry :
  load_properties st = (Ok properties, st') ->
  Dict.get properties k = Some entry ->
  only_writes_last (call entry).
Proof.
  intros Hload Hget.
  destruct (load_properties_entries _ _ _ _ _ Hload Hget) as [-> | Hfixed].
  - apply temperature_call_only_writes_last.
  - apply get_elem_of in Hfixed.
    pose proof fixed_properties_only_write_last as Hall.
    rewrite Forall_forall in Hall. exact (Hall _ Hfixed).
Qed.

Lemma only_writes_last_fields c st :
  only_writes_last c ->
  host (snd (c st)) = host st /\ temp_sensor (snd (c st)) = temp_sensor st /\
  published (snd (c st)) = published st /\ queue (snd (c st)) = queue st.
Proof.
  intros H. specialize (H st). set (st1 := snd (c st)) in *.
  repeat split.
  - apply (f_equal host) in H. exact H.
  - apply (f_equal temp_sensor) in H. exact H.
  - apply (f_equal published) in H. exact H.
  - apply (f_equal queue) in H. exact H.
Qed.

(** X6.  [load_properties] never raises and changes nothing but its own
    loop variable.  The keys of the registry it returns are pairwise
    distinct, and they are the seven fixed keys together with, where
    [psutil] has [sensors_temperatures], the names of the sensor groups. *)
Theorem load_properties_registry st :
  exists properties,
    load_properties st =
      (Ok properties,
       if has_sensors_temperatures (host st) then
         from_option (fun g => with_temp_sensor (Some g) st) st
           (list.last (Dict.keys (sensors_temperatures (host st))))
       else st) /\
    NoDup (Dict.keys properties) /\
    forall k,
      k ∈ Dict.keys properties <->
      k ∈ ["cpu_percent"; "virtual_memory"; "uptime"; "bytes_sent"; "bytes_recv";
           "upload"; "download"] \/
      (has_sensors_temperatures (host st) = true /\
       k ∈ Dict.keys (sensors_temperatures (host st))).
Proof.
  assert (Hkeys : Dict.keys fixed_properties =
            ["cpu_percent"; "virtual_memory"; "uptime"; "bytes_sent"; "bytes_recv";
             "upload"; "download"]) by (vm_compute; reflexivity).
  assert (Hfixed : NoDup (Dict.keys fixed_properties)).
  { apply (bool_decide_unpack (NoDup (Dict.keys fixed_properties))).
    vm_compute. exact I. }
  rewrite <- Hkeys. rewrite load_properties_eq.
  destruct (has_sensors_temperatures (host st)); eexists; (split; [reflexivity |]).
  - split; [apply assign_all_NoDup; exact Hfixed |].
    intros k. rewrite assign_all_keys. tauto.
  - split; [exact Hfixed |].
    intros k. split; [auto | intros [H | [H _]]; [exact H | discriminate]].
Qed.

(** X7.  After [load_properties], the entry of every sensor group, called,
    returns the first reading of the group that the host lists last; it is
    the group's own reading only for that last group.  The entry of a
    group replaces a fixed entry of the same name. *)
Theorem temperature_entries_sample_last_group st properties st' g glast current rest :
  has_sensors_temperatures (host st) = true ->
  load_properties st = (Ok properties, st') ->
  g ∈ Dict.keys (sensors_temperatures (host st)) ->
  list.last (Dict.keys (sensors_temperatures (host st))) = Some glast ->
  Dict.get (sensors_temperatures (host st)) glast = Some (current :: rest) ->
  exists entry,
    Dict.get properties g = Some entry /\
    attrs entry !! "device_class" = Some "temperature" /\
    call entry st' = (Ok (VFloat current), st').
Proof.
  intros Hhas Hload Hg Hlast Hget.
  destruct (load_properties_groups st properties st' g Hhas Hload Hg) as [_ Hentry].
  exists temperature_entry. split; [exact Hentry |]. split; [reflexivity |].
  exact (temperature_call_last st properties st' glast current rest Hhas Hload Hlast Hget).
Qed.

Lemma temperature_entries_sample_last_group_witness :
  exists entry,
    Dict.get (assign_all ["coretemp"; "acpitz"] fixed_properties) "coretemp" =
      Some entry /\
    attrs entry !! "device_class" = Some "temperature" /\
    call entry (with_temp_sensor (Some "acpitz") (initial_state example_host)) =
      (Ok (VFloat 27.8), with_temp_sensor (Some "acpitz") (initial_state example_host)).
Proof.
  apply (temperature_entries_sample_last_group (initial_state example_host)
           (assign_all ["coretemp"; "acpitz"] fixed_properties)
           (with_temp_sensor (Some "acpitz") (initial_state example_host))
           "coretemp" "acpitz" 27.8%Q []).
  - reflexivity.
  - reflexivity.
  - apply (bool_decide_unpack _). vm_compute. exact I.
  - reflexivity.
  - reflexivity.
Defined.

(** X8.  No sampling function of the registry publishes, schedules, or
    touches the loop variable of [load_properties]: what it leaves is the
    state it found, but for [last]. *)
Theorem registry_samplers_only_write_last st properties st' k entry s :
  load_properties st = (Ok properties, st') ->
  Dict.get properties k = Some entry ->
  host (snd (call entry s)) = host s /\
  temp_sensor (snd (call entry s)) = temp_sensor s /\
  published (snd (call entry s)) = published s /\
  queue (snd (call entry s)) = queue s.
Proof.
  intros Hload Hget. apply only_writes_last_fields.
  exact (registry_frames st properties st' k entry Hload Hget).
Qed.

Lemma registry_samplers_only_write_last_witness :
  exists entry,
    Dict.get (assign_all ["coretemp"; "acpitz"] fixed_properties) "upload" = Some entry /\
    host (snd (call entry (with_last example_last (initial_state example_host_busy)))) =
      example_host_busy /\
    temp_sensor
      (snd (call entry (with_last example_last (initial_state example_host_busy)))) =
      None /\
    published
      (snd (call entry (with_last example_last (initial_state example_host_busy)))) =
      [] /\
    queue (snd (call entry (with_last example_last (initial_state example_host_busy)))) =
      [].
Proof.
  eexists. split; [reflexivity |].
  apply (registry_samplers_only_write_last (initial_state example_host)
           (assign_all ["coretemp"; "acpitz"] fixed_properties)
           (with_temp_sensor (Some "acpitz") (initial_state example_host)) "upload").
  - reflexivity.
  - reflexivity.
Defined.

(** ** The scheduler tick, continued *)

(** What a run of the loop of [status] over the keys [ks] leaves. *)
Lemma publish_metric_loop properties base_topic ks : forall st res st',
  (forall k entry, k ∈ ks -> Dict.get properties k = Some entry ->
                   only_writes_last (call entry)) ->
  for_each ks (publish_metric properties base_topic) st = (res, st') ->
  exists msgs done rest,
    ks = (done ++ rest)%list /\
    published st' = (published st ++ msgs)%list /\
    map topic msgs = map (MQTT_STATE_TOPIC base_topic) done /\
    Forall (fun m => retain m = false) msgs /\
    host st' = host st /\ temp_sensor st' = temp_sensor st /\
    queue st' = queue st /\
    match res with
    | Ok _ => rest = []
    | Raise _ => rest <> []
    end.
Proof.
  induction ks as [| k ks IH]; intros st res st' Hframe Hrun.
  - cbn in Hrun. injection Hrun as <- <-. exists [], [], [].
    split; [reflexivity |]. split; [symmetry; apply app_nil_r |].
    repeat split; constructor.
  - cbn [for_each] in Hrun. unfold bind at 1 in Hrun.
    unfold publish_metric at 1 in Hrun. unfold bind at 1 in Hrun.
    destruct (Dict.get properties k) as [entry |] eqn:Hentry.
    + pose proof (only_writes_last_fields (call entry) st
                    (Hframe k entry (list_elem_of_here _ _) Hentry))
        as (Hh & Ht & Hp & Hq).
      destruct (call entry st) as [[v | e] st1]; cbn [fst snd] in *.
      * unfold publish at 1 in Hrun.
        set (m := {| topic := MQTT_STATE_TOPIC base_topic k; payload := v;
                     retain := false |}) in Hrun.
        destruct (IH _ _ _ (fun k' entry' Hk' =>
                              Hframe k' entry' (list_elem_of_further _ _ _ Hk')) Hrun)
          as (msgs & done & rest & Hks & Hpub & Htop & Hret & Hh2 & Ht2 & Hq2 & Hres).
        cbn [published host temp_sensor queue with_published] in Hpub, Hh2, Ht2, Hq2.
        exists (m :: msgs), (k :: done), rest.
        split; [cbn; rewrite Hks; reflexivity |].
        split; [rewrite Hpub, Hp, <- app_assoc; reflexivity |].
        split; [cbn; rewrite Htop; reflexivity |].
        split; [constructor; [reflexivity | exact Hret] |].
        split; [rewrite Hh2; exact Hh |].
        split; [rewrite Ht2; exact Ht |].
        split; [rewrite Hq2; exact Hq |]. exact Hres.
      * injection Hrun as <- <-. exists [], [], (k :: ks).
        split; [reflexivity |]. split; [rewrite app_nil_r; exact Hp |].
        repeat split; try assumption; try constructor. discriminate.
    + unfold raise in Hrun. injection Hrun as <- <-.
      exists [], [], (k :: ks).
      split; [reflexivity |]. split; [symmetry; apply app_nil_r |].
      repeat split; try constructor. discriminate.
Qed.

(** The two ways a tick can go, for a registry that [load_properties]
    built. *)
Lemma status_cases properties period base_topic st0 st0' st res st' :
  load_properties st0 = (Ok properties, st0') ->
  status properties period base_topic st = (res, st') ->
  exists msgs done rest,
    Dict.keys properties = (done ++ rest)%list /\
    published st' = (published st ++ msgs)%list /\
    map topic msgs = map (MQTT_STATE_TOPIC base_topic) done /\
    Forall (fun m => retain m = false) msgs /\
    host st' = host st /\ temp_sensor st' = temp_sensor st /\
    match res with
    | Ok _ =>
        rest = [] /\
        queue st' = (queue st ++ [{| delay := period; priority := 1 |}])%list
    | Raise _ => rest <> [] /\ queue st' = queue st
    end.
Proof.
  intros Hload Hstatus. unfold status, bind in Hstatus.
  destruct (for_each (Dict.keys properties) (publish_metric properties base_topic) st)
    as [[[] | e] st1] eqn:Hrun;
    destruct (publish_metric_loop properties base_topic (Dict.keys properties) st _ _
                (fun k entry _ Hentry => registry_frames _ _ _ _ _ Hload Hentry) Hrun)
      as (msgs & done & rest & Hks & Hpub & Htop & Hret & Hh & Ht & Hq & Hres).
  - unfold enter in Hstatus. injection Hstatus as <- <-.
    exists msgs, done, rest.
    cbn [published host temp_sensor queue with_queue]. rewrite Hq.
    repeat split; assumption.
  - injection Hstatus as <- <-. exists msgs, done, rest. repeat split; assumption.
Qed.

(** X9.  A tick that returns has published, in the order of the registry,
    one message per key on "<base_topic>/<key>", none of them retained,
    and has entered exactly one event, with the period as delay and
    priority 1; the host and the rest of the queue are as before. *)
Theorem status_returns properties period base_topic st0 st0' st st' :
  load_properties st0 = (Ok properties, st0') ->
  status properties period base_topic st = (Ok tt, st') ->
  exists msgs,
    published st' = (published st ++ msgs)%list /\
    map topic msgs = map (MQTT_STATE_TOPIC base_topic) (Dict.keys properties) /\
    Forall (fun m => retain m = false) msgs /\
    queue st' = (queue st ++ [{| delay := period; priority := 1 |}])%list /\
    host st' = host st.
Proof.
  intros Hload Hstatus.
  destruct (status_cases _ _ _ _ _ _ _ _ Hload Hstatus)
    as (msgs & done & rest & Hks & Hpub & Htop & Hret & Hh & _ & -> & Hq).
  rewrite app_nil_r in Hks. rewrite <- Hks in Htop.
  exists msgs. repeat split; assumption.
Qed.

Lemma status_returns_witness :
  exists msgs,
    published (snd (status fixed_properties 60 "ps2mqtt/media-box"
                      (initial_state example_host_plain))) =
      (published (initial_state example_host_plain) ++ msgs)%list /\
    map topic msgs =
      map (MQTT_STATE_TOPIC "ps2mqtt/media-box") (Dict.keys fixed_properties) /\
    Forall (fun m => retain m = false) msgs /\
    queue (snd (status fixed_properties 60 "ps2mqtt/media-box"
                  (initial_state example_host_plain))) =
      (queue (initial_state example_host_plain) ++
       [{| delay := 60; priority := 1 |}])%list /\
    host (snd (status fixed_properties 60 "ps2mqtt/media-box"
                 (initial_state example_host_plain))) =
      host (initial_state example_host_plain).
Proof.
  apply (status_returns fixed_properties 60 "ps2mqtt/media-box"
           (initial_state example_host_plain) (initial_state example_host_plain)).
  - reflexivity.
  - vm_compute. reflexivity.
Defined.

(** X10.  A tick that raises has published the values of an initial part
    of the registry's keys, short of at least one key, and has entered no
    event: the queue is as it was. *)
Theorem status_raises properties period base_topic st0 st0' st e st' :
  load_properties st0 = (Ok properties, st0') ->
  status properties period base_topic st = (Raise e, st') ->
  queue st' = queue st /\
  exists msgs done rest,
    Dict.keys properties = (done ++ rest)%list /\ rest <> [] /\
    published st' = (published st ++ msgs)%list /\
    map topic msgs = map (MQTT_STATE_TOPIC base_topic) done.
Proof.
  intros Hload Hstatus.
  destruct (status_cases _ _ _ _ _ _ _ _ Hload Hstatus)
    as (msgs & done & rest & Hks & Hpub & Htop & _ & _ & _ & Hrest & Hq).
  split; [exact Hq |]. exists msgs, done, rest. auto.
Qed.

Lemma status_raises_witness :
  queue (snd (status fixed_properties 60 "ps2mqtt/media-box"
                (with_last example_last (initial_state example_host_plain_later)))) =
    queue (with_last example_last (initial_state example_host_plain_later)) /\
  exists msgs done rest,
    Dict.keys fixed_properties = (done ++ rest)%list /\ rest <> [] /\
    published (snd (status fixed_properties 60 "ps2mqtt/media-box"
                      (with_last example_last
                         (initial_state example_host_plain_later)))) =
      (published (with_last example_last (initial_state example_host_plain_later)) ++
       msgs)%list /\
    map topic msgs = map (MQTT_STATE_TOPIC "ps2mqtt/media-box") done.
Proof.
  apply (status_raises fixed_properties 60 "ps2mqtt/media-box"
           (initial_state example_host_plain) (initial_state example_host_plain)
           _ DivisionByZero).
  - reflexivity.
  - vm_compute. reflexivity.
Defined.

(** X11.  The scheduler never holds two events: if at most one event is
    queued when [run] starts, at most one is queued when it stops, and
    none when it stops with an exception. *)
Theorem run_queue_bound properties period base_topic st0 st0' hosts st :
  load_properties st0 = (Ok properties, st0') ->
  (length (queue st) <= 1)%nat ->
  (length (queue (snd (run hosts properties period base_topic st))) <= 1)%nat /\
  forall e, fst (run hosts properties period base_topic st) = Raise e ->
            queue (snd (run hosts properties period base_topic st)) = [].
Proof.
  intros Hload. revert st.
  induction hosts as [| h hosts IH]; intros st Hlen.
  - cbn. split; [exact Hlen | discriminate].
  - cbn [run]. destruct (queue st) as [| ev events] eqn:Hqueue.
    + cbn. rewrite Hqueue. split; [cbn; lia | discriminate].
    + assert (events = []) as -> by (destruct events; [reflexivity | cbn in Hlen; lia]).
      unfold bind.
      destruct (status properties period base_topic (with_host h (with_queue [] st)))
        as [[[] | e] st1] eqn:Hstatus;
        destruct (status_cases _ _ _ _ _ _ _ _ Hload Hstatus)
          as (msgs & done & rest & _ & _ & _ & _ & _ & _ & _ & Hq).
      * apply IH. rewrite Hq. cbn. lia.
      * cbn [fst snd]. rewrite Hq. cbn. split; [lia | reflexivity].
Qed.

Lemma run_queue_bound_witness :
  (length (queue (snd (run [example_host_plain_later] fixed_properties 60
                         "ps2mqtt/media-box"
                         (with_queue [{| delay := 60; priority := 1 |}]
                            (with_last example_last
                               (initial_state example_host_plain)))))) <= 1)%nat /\
  forall e,
    fst (run [example_host_plain_later] fixed_properties 60 "ps2mqtt/media-box"
           (with_queue [{| delay := 60; priority := 1 |}]
              (with_last example_last (initial_state example_host_plain)))) = Raise e ->
    queue (snd (run [example_host_plain_later] fixed_properties 60 "ps2mqtt/media-box"
                  (with_queue [{| delay := 60; priority := 1 |}]
                     (with_last example_last (initial_state example_host_plain))))) =
      [].
Proof.
  apply (run_queue_bound fixed_properties 60 "ps2mqtt/media-box"
           (initial_state example_host_plain) (initial_state example_host_plain)).
  - reflexivity.
  - cbn. lia.
Defined.

(** ** A tick on a host without temperature sensors *)

Lemma fixed_keys :
  Dict.keys fixed_properties =
    ["cpu_percent"; "virtual_memory"; "uptime"; "bytes_sent"; "bytes_recv";
     "upload"; "download"].
Proof. vm_compute. reflexivity. Qed.

Lemma clock_stalled_ext key st1 st2 :
  last st1 !! key = last st2 !! key -> host st1 = host st2 ->
  clock_stalled key st1 -> clock_stalled key st2.
Proof.
  intros Hl Hh (lt & lv & H1 & H2). exists lt, lv. rewrite <- Hl, <- Hh. auto.
Qed.

(** The five metrics that do not use the rate store. *)
Lemma publish_metric_plain base_topic k st :
  k ∈ ["cpu_percent"; "virtual_memory"; "uptime"; "bytes_sent"; "bytes_recv"] ->
  exists v,
    publish_metric fixed_properties base_topic k st =
      (Ok tt,
       with_published
         (published st ++
          [{| topic := MQTT_STATE_TOPIC base_topic k; payload := v; retain := false |}])
         st).
Proof.
  intros Hk. repeat (apply elem_of_cons in Hk as [-> | Hk]);
    try (inversion Hk; fail); eexists; reflexivity.
Qed.

Lemma publish_metric_upload base_topic st :
  publish_metric fixed_properties base_topic "upload" st =
    match rate "upload" (Float.int_truediv (bytes_sent (host st)) 1000) st with
    | (Ok x, st1) =>
        (Ok tt,
         with_published
           (published st1 ++
            [{| topic := MQTT_STATE_TOPIC base_topic "upload"; payload := VFloat x;
                retain := false |}]) st1)
    | (Raise e, st1) => (Raise e, st1)
    end.
Proof.
  unfold publish_metric.
  change (Dict.get fixed_properties "upload") with
    (Some {| attrs := {[ "unit_of_measurement" := "kbps"; "icon" := "mdi:upload-network" ]};
             call := bind (gets (fun st => bytes_sent (host st)))
                       (fun n => bind (rate "upload" (Float.int_truediv n 1000))
                                   (fun x => ret (VFloat x))) |}).
  unfold bind, gets, ret, call.
  destruct (rate "upload" _ st) as [[x | e] st1]; reflexivity.
Qed.

Lemma publish_metric_download base_topic st :
  publish_metric fixed_properties base_topic "download" st =
    match rate "download" (Float.int_truediv (bytes_recv (host st)) 1000) st with
    | (Ok x, st1) =>
        (Ok tt,
         with_published
           (published st1 ++
            [{| topic := MQTT_STATE_TOPIC base_topic "download"; payload := VFloat x;
                retain := false |}]) st1)
    | (Raise e, st1) => (Raise e, st1)
    end.
Proof.
  unfold publish_metric.
  change (Dict.get fixed_properties "download") with
    (Some {| attrs := {[ "unit_of_measurement" := "kbps"; "icon" := "mdi:download-network" ]};
             call := bind (gets (fun st => bytes_recv (host st)))
                       (fun n => bind (rate "download" (Float.int_truediv n 1000))
                                   (fun x => ret (VFloat x))) |}).
  unfold bind, gets, ret, call.
  destruct (rate "download" _ st) as [[x | e] st1]; reflexivity.
Qed.

Lemma plain_prefix base_topic st :
  exists st5,
    for_each ["cpu_percent"; "virtual_memory"; "uptime"; "bytes_sent"; "bytes_recv"]
      (publish_metric fixed_properties base_topic) st = (Ok tt, st5) /\
    last st5 = last st /\ host st5 = host st /\ queue st5 = queue st.
Proof.
  cbn [for_each]. unfold bind.
  destruct (publish_metric_plain base_topic "cpu_percent" st) as [v1 ->];
    [apply (bool_decide_unpack _); vm_compute; exact I |].
  match goal with |- context [publish_metric _ _ "virtual_memory" ?s] =>
    destruct (publish_metric_plain base_topic "virtual_memory" s) as [v2 ->];
      [apply (bool_decide_unpack _); vm_compute; exact I |] end.
  match goal with |- context [publish_metric _ _ "uptime" ?s] =>
    destruct (publish_metric_plain base_topic "uptime" s) as [v3 ->];
      [apply (bool_decide_unpack _); vm_compute; exact I |] end.
  match goal with |- context [publish_metric _ _ "bytes_sent" ?s] =>
    destruct (publish_metric_plain base_topic "bytes_sent" s) as [v4 ->];
      [apply (bool_decide_unpack _); vm_compute; exact I |] end.
  match goal with |- context [publish_metric _ _ "bytes_recv" ?s] =>
    destruct (publish_metric_plain base_topic "bytes_recv" s) as [v5 ->];
      [apply (bool_decide_unpack _); vm_compute; exact I |] end.
  eexists. split; [reflexivity |]. repeat split; reflexivity.
Qed.

Lemma tick_fixed_cases period base_topic st :
  ((clock_stalled "upload" st \/ clock_stalled "download" st) /\
   exists e st', (e = DivisionByZero \/ e = InvalidOperation) /\
                 status fixed_properties period base_topic st = (Raise e, st')) \/
  (~ clock_stalled "upload" st /\ ~ clock_stalled "download" st /\
   exists st',
     status fixed_properties period base_topic st = (Ok tt, st') /\
     last st' !! "upload" =
       Some (time_time (host st), Float.int_truediv (bytes_sent (host st)) 1000) /\
     host st' = host st /\
     queue st' = (queue st ++ [{| delay := period; priority := 1 |}])%list).
Proof.
  remember (status fixed_properties period base_topic st) as r eqn:Hr.
  unfold status in Hr. rewrite fixed_keys in Hr.
  change ["cpu_percent"; "virtual_memory"; "uptime"; "bytes_sent"; "bytes_recv";
          "upload"; "download"]
    with (["cpu_percent"; "virtual_memory"; "uptime"; "bytes_sent"; "bytes_recv"] ++
          ["upload"; "download"])%list in Hr.
  unfold bind at 1 in Hr. rewrite for_each_app in Hr. unfold bind at 1 in Hr.
  destruct (plain_prefix base_topic st) as (st5 & Hpre & Hl5 & Hh5 & Hq5).
  rewrite Hpre in Hr. clear Hpre.
  cbn [for_each] in Hr. unfold bind at 1 in Hr. rewrite publish_metric_upload in Hr.
  destruct (rate_cases "upload" (Float.int_truediv (bytes_sent (host st5)) 1000) st5)
    as [[Hs (e & lv & Hk & _ & _ & He)] | [Hns [x Hx]]].
  - rewrite He in Hr. left. split; [| subst r; eauto].
    left. apply (clock_stalled_ext "upload" st5 st);
      [rewrite Hl5; reflexivity | exact Hh5 | exact Hs].
  - rewrite Hx in Hr. unfold bind at 1 in Hr. rewrite publish_metric_download in Hr.
    assert (Hup : ~ clock_stalled "upload" st).
    { intros Hs. apply Hns. apply (clock_stalled_ext "upload" st st5);
        [rewrite Hl5; reflexivity | symmetry; exact Hh5 | exact Hs]. }
    match type of Hr with context [rate "download" ?v ?s] =>
      destruct (rate_cases "download" v s)
        as [[Hs (e & lv & Hk & _ & _ & He)] | [Hnd [y Hy]]] end.
    + rewrite He in Hr. left. split; [| subst r; eauto].
      right. apply (clock_stalled_ext "download" _ st) in Hs; [exact Hs | | exact Hh5].
      cbn [last with_published with_last]. rewrite lookup_insert_ne by discriminate.
      rewrite Hl5. reflexivity.
    + rewrite Hy in Hr. right. split; [exact Hup |]. split.
      * intros Hs. apply Hnd. apply (clock_stalled_ext "download" st);
          [| symmetry; exact Hh5 | exact Hs].
        cbn [last with_published with_last]. rewrite lookup_insert_ne by discriminate.
        rewrite Hl5. reflexivity.
      * eexists. split; [exact Hr |].
        cbn [last host queue with_published with_last with_queue ret enter fst snd].
        rewrite lookup_insert_ne by discriminate. rewrite lookup_insert_eq.
        rewrite Hh5, Hq5. auto.
Qed.

(** X12.  A tick on a host without temperature sensors, for one reading
    of the clock during the tick.  The tick raises exactly when [last]
    holds, for "upload" or for "download", a sample taken at that reading,
    and returns exactly when it holds none; what it raises is an exception
    of the Decimal division. *)
Theorem tick_raises_iff period base_topic st :
  ((exists e, fst (status fixed_properties period base_topic st) = Raise e) <->
   clock_stalled "upload" st \/ clock_stalled "download" st) /\
  (fst (status fixed_properties period base_topic st) = Ok tt <->
   ~ (clock_stalled "upload" st \/ clock_stalled "download" st)) /\
  (forall e, fst (status fixed_properties period base_topic st) = Raise e ->
             e = DivisionByZero \/ e = InvalidOperation).
Proof.
  destruct (tick_fixed_cases period base_topic st)
    as [[Hs (e & st' & Hk & Hr)] | (Hu & Hd & st1 & Hok & _)].
  - rewrite Hr. cbn [fst]. split; [| split].
    + split; [intros _; exact Hs | intros _; eauto].
    + split; [discriminate | intros Hn; contradiction].
    + intros e' He'. injection He' as <-. exact Hk.
  - rewrite Hok. cbn [fst]. split; [| split].
    + split; [intros [e He]; discriminate | intros [Hs | Hs]; contradiction].
    + split; [intros _ [Hs | Hs]; contradiction | reflexivity].
    + discriminate.
Qed.

(** ** Topics *)

Lemma string_length_app (a b : string) :
  String.length (a ++ b) = (String.length a + String.length b)%nat.
Proof.
  induction a as [| c a IH]; [reflexivity |].
  change (String c a ++ b) with (String c (a ++ b)). cbn [String.length].
  rewrite IH. reflexivity.
Qed.

Lemma string_app_inj_r (s p q : string) : p ++ s = q ++ s -> p = q.
Proof.
  revert q. induction p as [| c p IH]; intros [| c' q] H.
  - reflexivity.
  - apply (f_equal String.length) in H. rewrite !string_length_app in H.
    cbn [String.length] in H. lia.
  - apply (f_equal String.length) in H. rewrite !string_length_app in H.
    cbn [String.length] in H. lia.
  - change (String c (p ++ s) = String c' (q ++ s)) in H.
    injection H as -> H. f_equal. apply IH. exact H.
Qed.

(** X13.  Two distinct metric keys never share a topic: neither the topic
    of their values nor the topic of their discovery records. *)
Theorem topics_of_distinct_keys base_topic ha_prefix host_slug p1 p2 :
  p1 <> p2 ->
  MQTT_STATE_TOPIC base_topic p1 <> MQTT_STATE_TOPIC base_topic p2 /\
  HA_DISCOVERY_PREFIX ha_prefix host_slug p1 <> HA_DISCOVERY_PREFIX ha_prefix host_slug p2.
Proof.
  intros Hne. unfold MQTT_STATE_TOPIC, HA_DISCOVERY_PREFIX. split; intros H.
  - apply string_app_inj, string_app_inj in H. contradiction.
  - do 4 apply string_app_inj in H. apply string_app_inj_r in H. contradiction.
Qed.

Lemma topics_of_distinct_keys_witness :
  MQTT_STATE_TOPIC "ps2mqtt/media-box" "cpu_thermal" <>
    MQTT_STATE_TOPIC "ps2mqtt/media-box" "cpu-thermal" /\
  HA_DISCOVERY_PREFIX "homeassistant" "media-box" "cpu_thermal" <>
    HA_DISCOVERY_PREFIX "homeassistant" "media-box" "cpu-thermal".
Proof.
  apply (topics_of_distinct_keys "ps2mqtt/media-box" "homeassistant" "media-box"
           "cpu_thermal" "cpu-thermal").
  discriminate.
Defined.

Lemma state_topic_is_status_topic base_topic p :
  MQTT_STATE_TOPIC base_topic p = MQTT_PS2MQTT_STATUS base_topic <-> p = "status".
Proof.
  unfold MQTT_STATE_TOPIC, MQTT_PS2MQTT_STATUS. split.
  - intros H. apply string_app_inj in H.
    change (String "/" p = String "/" "status") in H. injection H as H. exact H.
  - intros ->. reflexivity.
Qed.

(** X14.  A tick that returns has published on the availability topic
    "<base_topic>/status" exactly when the host that [load_properties] saw
    has a group of temperature sensors named "status": the reading of that
    group then goes to the topic that carries "online" and "offline". *)
Theorem tick_publishes_on_availability_topic st0 properties st0' period base_topic
    st st' :
  load_properties st0 = (Ok properties, st0') ->
  status properties period base_topic st = (Ok tt, st') ->
  exists msgs,
    published st' = (published st ++ msgs)%list /\
    (MQTT_PS2MQTT_STATUS base_topic ∈ map topic msgs <->
     has_sensors_temperatures (host st0) = true /\
     "status" ∈ Dict.keys (sensors_temperatures (host st0))).
Proof.
  intros Hload Hstatus.
  destruct (status_cases _ _ _ _ _ _ _ _ Hload Hstatus)
    as (msgs & done & rest & Hks & Hpub & Htop & _ & _ & _ & -> & _).
  rewrite app_nil_r in Hks. rewrite <- Hks in Htop.
  exists msgs. split; [exact Hpub |].
  rewrite Htop, list_elem_of_fmap.
  assert (Hkey : (exists k, MQTT_PS2MQTT_STATUS base_topic = MQTT_STATE_TOPIC base_topic k /\
                            k ∈ Dict.keys properties) <->
                 "status" ∈ Dict.keys properties).
  { split.
    - intros (k & Heq & Hk). symmetry in Heq.
      apply state_topic_is_status_topic in Heq. subst k. exact Hk.
    - intros Hk. exists "status". split; [reflexivity | exact Hk]. }
  rewrite Hkey. clear Hkey.
  rewrite load_properties_eq in Hload.
  destruct (has_sensors_temperatures (host st0)); injection Hload as <- <-.
  - rewrite assign_all_keys. split.
    + intros [Hfixed | Hgroup]; [| auto].
      exfalso. revert Hfixed. rewrite fixed_keys.
      apply (bool_decide_unpack _). vm_compute. exact I.
    + intros [_ Hgroup]. right. exact Hgroup.
  - split.
    + intros Hfixed. exfalso. revert Hfixed. rewrite fixed_keys.
      apply (bool_decide_unpack _). vm_compute. exact I.
    + intros [Hfalse _]. discriminate.
Qed.

Lemma tick_publishes_on_availability_topic_witness :
  exists msgs,
    published (snd (status fixed_properties 60 "ps2mqtt/media-box"
                      (initial_state example_host_plain))) =
      (published (initial_state example_host_plain) ++ msgs)%list /\
    (MQTT_PS2MQTT_STATUS "ps2mqtt/media-box" ∈ map topic msgs <->
     has_sensors_temperatures (host (initial_state example_host_plain)) = true /\
     "status" ∈ Dict.keys
       (sensors_temperatures (host (initial_state example_host_plain)))).
Proof.
  apply (tick_publishes_on_availability_topic (initial_state example_host_plain)
           fixed_properties (initial_state example_host_plain) 60 "ps2mqtt/media-box").
  - reflexivity.
  - vm_compute. reflexivity.
Defined.

(** ** The connect callback and the discovery records, continued *)

Lemma is_discovery_unique properties ha_prefix base_topic h ks : forall r1 r2,
  Forall2 (is_discovery properties ha_prefix base_topic h) ks r1 ->
  Forall2 (is_discovery properties ha_prefix base_topic h) ks r2 ->
  r1 = r2.
Proof.
  induction ks as [| k ks IH]; intros r1 r2 H1 H2.
  - inversion H1. inversion H2. reflexivity.
  - inversion H1 as [| ? m1 ? r1' Hm1 Hr1]. inversion H2 as [| ? m2 ? r2' Hm2 Hr2]. subst.
    f_equal; [| apply IH; assumption].
    destruct Hm1 as (Ht1 & Hr1' & c1 & Hp1 & Hc1).
    destruct Hm2 as (Ht2 & Hr2' & c2 & Hp2 & Hc2).
    destruct m1, m2; cbn in *. congruence.
Qed.

Lemma json_config_names h1 h2 sensor base_topic :
  node h1 = node h2 ->
  platform_platform h1 = platform_platform h2 ->
  platform_system h1 = platform_system h2 ->
  json_config h1 sensor base_topic = json_config h2 sensor base_topic.
Proof. intros Hn Hp Hs. unfold json_config. rewrite Hn, Hp, Hs. reflexivity. Qed.

(** X15.  A reconnection publishes again what the connection published:
    as long as [platform] reports the same node name, platform and system,
    two calls of [on_connect] append the same list of messages, whatever
    the clock, the counters and the sensors read, whatever else the state
    holds, and whatever flags and result code the calls are given. *)
Theorem on_connect_again userdata flags1 rc1 flags2 rc2 st1 st2 :
  node (host st1) = node (host st2) ->
  platform_platform (host st1) = platform_platform (host st2) ->
  platform_system (host st1) = platform_system (host st2) ->
  exists msgs,
    on_connect userdata flags1 rc1 st1 =
      (Ok tt, with_published (published st1 ++ msgs) st1) /\
    on_connect userdata flags2 rc2 st2 =
      (Ok tt, with_published (published st2 ++ msgs) st2).
Proof.
  intros Hnode Hplatform Hsystem. destruct userdata as [[properties ha_prefix] base_topic].
  set (online := {| topic := MQTT_PS2MQTT_STATUS base_topic;
                    payload := VStr MQTT_AVAILABLE; retain := true |}).
  destruct (publish_discovery_each properties ha_prefix base_topic
              (Dict.keys properties)
              (with_published (published st1 ++ [online]) st1)
              (fun k => get_keys properties k)) as (r1 & Hrun1 & Hall1).
  destruct (publish_discovery_each properties ha_prefix base_topic
              (Dict.keys properties)
              (with_published (published st2 ++ [online]) st2)
              (fun k => get_keys properties k)) as (r2 & Hrun2 & Hall2).
  cbn [host with_published] in Hall1, Hall2.
  assert (Hall1' : Forall2 (is_discovery properties ha_prefix base_topic (host st2))
                     (Dict.keys properties) r1).
  { apply (Forall2_impl _ _ _ _ Hall1). intros k m (Ht & Hr & config & Hp & Hc).
    unfold is_discovery. rewrite <- Hnode.
    rewrite <- (json_config_names (host st1) (host st2) k base_topic
                  Hnode Hplatform Hsystem).
    eauto. }
  assert (r1 = r2) as -> by exact (is_discovery_unique _ _ _ _ _ _ _ Hall1' Hall2).
  exists (online :: r2). split.
  - unfold on_connect, bind at 1, publish. fold online. rewrite Hrun1.
    cbn. rewrite <- app_assoc. reflexivity.
  - unfold on_connect, bind at 1, publish. fold online. rewrite Hrun2.
    cbn. rewrite <- app_assoc. reflexivity.
Qed.

Lemma on_connect_again_witness :
  exists msgs,
    on_connect (fixed_properties, "homeassistant", "ps2mqtt/media-box") 0 0
      (initial_state example_host) =
      (Ok tt,
       with_published (published (initial_state example_host) ++ msgs)
         (initial_state example_host)) /\
    on_connect (fixed_properties, "homeassistant", "ps2mqtt/media-box") 0 5
      (with_last example_last (initial_state example_host_busy)) =
      (Ok tt,
       with_published
         (published (with_last example_last (initial_state example_host_busy)) ++ msgs)
         (with_last example_last (initial_state example_host_busy))).
Proof.
  apply (on_connect_again (fixed_properties, "homeassistant", "ps2mqtt/media-box")
           0 0 0 5 (initial_state example_host)
           (with_last example_last (initial_state example_host_busy)));
    reflexivity.
Defined.

(** X16.  For a key that the registry does not hold, [gen_ha_config] raises
    [KeyError] with that key and changes nothing. *)
Theorem gen_ha_config_unknown_sensor sensor properties base_topic st :
  Dict.get properties sensor = None ->
  gen_ha_config sensor properties base_topic st = (Raise (KeyError sensor), st).
Proof.
  intros H. unfold gen_ha_config, bind, gets, lift. cbn. rewrite H. reflexivity.
Qed.

Lemma gen_ha_config_unknown_sensor_witness :
  gen_ha_config "coretemp" fixed_properties "ps2mqtt/media-box"
    (initial_state example_host_plain) =
    (Raise (KeyError "coretemp"), initial_state example_host_plain).
Proof.
  apply (gen_ha_config_unknown_sensor "coretemp" fixed_properties "ps2mqtt/media-box").
  reflexivity.
Defined.

Lemma gen_ha_config_mandatory sensor properties base_topic entry st :
  Dict.get properties sensor = Some entry ->
  exists config,
    gen_ha_config sensor properties base_topic st = (Ok (VJsonText (JObj config)), st) /\
    forall k, k ∈ MANDATORY ->
      Dict.get config k = Dict.get (json_config (host st) sensor base_topic) k.
Proof.
  intros H. unfold gen_ha_config, bind, gets, lift, ret.
  rewrite (copy_optional_ok _ _ _ entry _ H).
  eexists. split; [reflexivity |].
  unfold OPTIONAL_ATTR, MANDATORY. cbn [fold_left].
  destruct (attrs entry !! "device_class"), (attrs entry !! "icon"),
    (attrs entry !! "unit_of_measurement");
    intros k Hk; repeat (apply elem_of_cons in Hk as [-> | Hk]);
    try (inversion Hk; fail); reflexivity.
Qed.

(** X17.  The discovery record of a metric announces the topics the daemon
    uses: its "state_topic" is the topic on which [status] publishes the
    metric's value, and its "availability_topic" and "payload_available"
    are the topic and the payload of the first message of [on_connect]. *)
Theorem discovery_announces_topics properties ha_prefix base_topic flags rc
    p entry v st st1 :
  Dict.get properties p = Some entry ->
  call entry st = (Ok v, st1) ->
  exists config state_topic availability_topic available records,
    gen_ha_config p properties base_topic st = (Ok (VJsonText (JObj config)), st) /\
    Dict.get config "state_topic" = Some (JStr state_topic) /\
    Dict.get config "availability_topic" = Some (JStr availability_topic) /\
    Dict.get config "payload_available" = Some (JStr available) /\
    publish_metric properties base_topic p st =
      (Ok tt,
       with_published
         (published st1 ++ [{| topic := state_topic; payload := v; retain := false |}])
         st1) /\
    on_connect (properties, ha_prefix, base_topic) flags rc st =
      (Ok tt,
       with_published
         (published st ++
          {| topic := availability_topic; payload := VStr available; retain := true |}
            :: records) st).
Proof.
  intros Hentry Hcall.
  destruct (gen_ha_config_mandatory p properties base_topic entry st Hentry)
    as (config & Hgen & Hmand).
  set (online := {| topic := MQTT_PS2MQTT_STATUS base_topic;
                    payload := VStr MQTT_AVAILABLE; retain := true |}).
  destruct (publish_discovery_each properties ha_prefix base_topic
              (Dict.keys properties)
              (with_published (published st ++ [online]) st)
              (fun k => get_keys properties k)) as (records & Hrun & _).
  exists config, (MQTT_STATE_TOPIC base_topic p), (MQTT_PS2MQTT_STATUS base_topic),
    MQTT_AVAILABLE, records.
  split; [exact Hgen |].
  split; [rewrite Hmand by (apply (bool_decide_unpack _); vm_compute; exact I);
          reflexivity |].
  split; [rewrite Hmand by (apply (bool_decide_unpack _); vm_compute; exact I);
          reflexivity |].
  split; [rewrite Hmand by (apply (bool_decide_unpack _); vm_compute; exact I);
          reflexivity |].
  split.
  - unfold publish_metric, bind. rewrite Hentry, Hcall. reflexivity.
  - unfold on_connect, bind at 1, publish. fold online. rewrite Hrun.
    cbn. rewrite <- app_assoc. reflexivity.
Qed.

Lemma discovery_announces_topics_witness :
  exists config state_topic availability_topic available records,
    gen_ha_config "uptime" fixed_properties "ps2mqtt/media-box"
      (initial_state example_host) =
      (Ok (VJsonText (JObj config)), initial_state example_host) /\
    Dict.get config "state_topic" = Some (JStr state_topic) /\
    Dict.get config "availability_topic" = Some (JStr availability_topic) /\
    Dict.get config "payload_available" = Some (JStr available) /\
    publish_metric fixed_properties "ps2mqtt/media-box" "uptime"
      (initial_state example_host) =
      (Ok tt,
       with_published
         (published (initial_state example_host) ++
          [{| topic := state_topic; payload := VStr "2024-01-01T08:00:00+00:00";
              retain := false |}])
         (initial_state example_host)) /\
    on_connect (fixed_properties, "homeassistant", "ps2mqtt/media-box") 0 0
      (initial_state example_host) =
      (Ok tt,
       with_published
         (published (initial_state example_host) ++
          {| topic := availability_topic; payload := VStr available; retain := true |}
            :: records) (initial_state example_host)).
Proof.
  apply (discovery_announces_topics fixed_properties "homeassistant"
           "ps2mqtt/media-box" 0 0 "uptime"
           {| attrs := {[ "device_class" := "timestamp" ]};
              call := bind (gets (fun st => boot_time_isoformat (host st)))
                        (fun x => ret (VStr x)) |}
           (VStr "2024-01-01T08:00:00+00:00")
           (initial_state example_host) (initial_state example_host)).
  - reflexivity.
  - reflexivity.
Defined.

(** ** Start-up *)

Lemma try_config_file w config : try_config (try_block w (Some config)) = config.
Proof. unfold try_block. break_match; reflexivity. Qed.

Lemma try_block_argv a w config :
  try_block (with_argv a w) (Some config) = try_block w (Some config).
Proof. reflexivity. Qed.

Lemma args_dict_keys a1 a2 k :
  is_Some (args_dict a1 !! k) -> is_Some (args_dict a2 !! k).
Proof.
  intros H. apply elem_of_dom. apply elem_of_dom in H.
  replace (dom (args_dict a2)) with (dom (args_dict a1)); [exact H |].
  unfold args_dict. rewrite !dom_insert_L. reflexivity.
Qed.

Lemma main_final w file : final (main w file) = try_state (try_block w file).
Proof. unfold main. break_match; reflexivity. Qed.

(** A start without a configuration file. *)
Lemma main_without_file w :
  main w None =
    {| outcome := Returned; final := initial_state (boot w); will := None;
       connection := None; file_after := Some (default_config (argv w)) |}.
Proof. reflexivity. Qed.

Lemma load_properties_initial h :
  exists properties st,
    load_properties (initial_state h) = (Ok properties, st) /\
    published st = [] /\ queue st = [] /\ last st = ∅ /\ host st = h.
Proof.
  rewrite load_properties_eq. cbn [host initial_state].
  destruct (has_sensors_temperatures h).
  - do 2 eexists. split; [reflexivity |].
    destruct (list.last (Dict.keys (sensors_temperatures h))); cbn; auto.
  - do 2 eexists. split; [reflexivity |]. cbn. auto.
Qed.

(** A start with the file that a start without file has written. *)
Lemma main_without_period w :
  reachable w (CStr (arg_mqtt_server (argv w))) (CInt (arg_mqtt_port (argv w))) = true ->
  outcome (main w (Some (default_config (argv w)))) = Returned /\
  published (final (main w (Some (default_config (argv w))))) = [] /\
  connection (main w (Some (default_config (argv w)))) =
    Some (CStr (arg_mqtt_server (argv w)), CInt (arg_mqtt_port (argv w))) /\
  file_after (main w (Some (default_config (argv w)))) =
    Some (<["period" := CInt (arg_period (argv w))]> (default_config (argv w))).
Proof.
  intros Hreach. unfold main, try_block.
  destruct (load_properties_initial (boot w)) as (properties & st & -> & Hpub & _).
  change (default_config (argv w) !! "mqtt_server")
    with (Some (CStr (arg_mqtt_server (argv w)))).
  change (default_config (argv w) !! "mqtt_port")
    with (Some (CInt (arg_mqtt_port (argv w)))).
  change (default_config (argv w) !! "ha_discover_prefix")
    with (Some (CStr (arg_ha_discover_prefix (argv w)))).
  change (default_config (argv w) !! "mqtt_base_topic")
    with (Some (CStr (arg_mqtt_base_topic (argv w)))).
  change (default_config (argv w) !! "period") with (@None CVal).
  cbn iota. rewrite Hreach. cbn.
  change (args_dict (argv w) !! "period") with (Some (CInt (arg_period (argv w)))).
  cbn. auto.
Qed.

Lemma run_appends properties period base_topic st0 st0' hosts : forall st,
  load_properties st0 = (Ok properties, st0') ->
  exists more,
    published (snd (run hosts properties period base_topic st)) =
      (published st ++ more)%list.
Proof.
  induction hosts as [| h hosts IH]; intros st Hload.
  - exists []. cbn. rewrite app_nil_r. reflexivity.
  - cbn [run]. destruct (queue st) as [| ev events].
    + exists []. cbn. rewrite app_nil_r. reflexivity.
    + unfold bind.
      destruct (status properties period base_topic (with_host h (with_queue events st)))
        as [[[] | e] st1] eqn:Hstatus;
        destruct (status_cases _ _ _ _ _ _ _ _ Hload Hstatus)
          as (msgs & done & rest & _ & Hp & _).
      * destruct (IH st1 Hload) as [more Hmore].
        exists (msgs ++ more)%list. rewrite Hmore, Hp. cbn. apply eq_sym, app_assoc.
      * exists msgs. cbn [snd]. rewrite Hp. reflexivity.
Qed.

Lemma load_properties_plain h :
  has_sensors_temperatures h = false ->
  load_properties (initial_state h) = (Ok fixed_properties, initial_state h).
Proof.
  intros H. rewrite load_properties_eq. cbn [host initial_state]. rewrite H. reflexivity.
Qed.

Lemma not_stalled_initial key h : ~ clock_stalled key (initial_state h).
Proof. intros (lt & lv & H & _). cbn in H. rewrite lookup_empty in H. discriminate. Qed.

(** X18.  When the configuration file exists, [main] loses no entry of
    it: the file holds afterwards the mapping it held, or that mapping
    with one entry set to the value of a command-line argument. *)
Theorem main_changes_one_entry w config :
  file_after (main w (Some config)) = Some config \/
  exists k v,
    args_dict (argv w) !! k = Some v /\
    file_after (main w (Some config)) = Some (<[k := v]> config).
Proof.
  unfold main. rewrite try_config_file.
  destruct (try_progress (try_block w (Some config))) as [| [[| | k | |] | | |] |];
    try (left; reflexivity).
  destruct (args_dict (argv w) !! k) as [v |] eqn:Hk; [right | left; reflexivity].
  exists k, v. split; [exact Hk | reflexivity].
Qed.

(** X19.  When the configuration file exists, the settings given on the
    command line do not override it: for the same mapping in the file the
    outcome, the messages of the main thread, the last will and the
    connection are the same whatever the arguments are. *)
Theorem main_ignores_arguments w a config :
  outcome (main (with_argv a w) (Some config)) = outcome (main w (Some config)) /\
  final (main (with_argv a w) (Some config)) = final (main w (Some config)) /\
  will (main (with_argv a w) (Some config)) = will (main w (Some config)) /\
  connection (main (with_argv a w) (Some config)) = connection (main w (Some config)).
Proof.
  unfold main. rewrite try_block_argv.
  destruct (try_progress (try_block w (Some config))) as [| [[| | k | |] | | |] |];
    try (repeat split; reflexivity).
  cbn [argv with_argv].
  destruct (args_dict a !! k) as [v |] eqn:Ha, (args_dict (argv w) !! k) as [v' |] eqn:Hw;
    try (repeat split; reflexivity).
  - destruct (args_dict_keys a (argv w) k ltac:(eauto)) as [? ?]. congruence.
  - destruct (args_dict_keys (argv w) a k ltac:(eauto)) as [? ?]. congruence.
Qed.

(** What the [try] block has registered and connected to, from the four
    settings it reads before connecting. *)
Lemma try_block_will_connection w config :
  match config !! "mqtt_server", config !! "mqtt_port",
        config !! "ha_discover_prefix", config !! "mqtt_base_topic" with
  | Some server, Some port, Some _, Some base_topic =>
      try_will (try_block w (Some config)) =
        Some {| topic := str base_topic ++ "/status"; payload := VStr "offline";
                retain := true |} /\
      try_connection (try_block w (Some config)) =
        (if reachable w server port then Some (server, port) else None)
  | _, _, _, _ =>
      try_will (try_block w (Some config)) = None /\
      try_connection (try_block w (Some config)) = None
  end.
Proof.
  unfold try_block.
  destruct (load_properties_initial (boot w)) as (properties & st & -> & _).
  destruct (config !! "mqtt_server") as [server |]; [| split; reflexivity].
  destruct (config !! "mqtt_port") as [port |]; [| split; reflexivity].
  destruct (config !! "ha_discover_prefix") as [ha_prefix |]; [| split; reflexivity].
  destruct (config !! "mqtt_base_topic") as [base_topic |]; [| split; reflexivity].
  destruct (reachable w server port); [| split; reflexivity].
  break_match; split; reflexivity.
Qed.

Lemma main_will_connection w file :
  will (main w file) = try_will (try_block w file) /\
  connection (main w file) = try_connection (try_block w file).
Proof. unfold main. break_match; split; reflexivity. Qed.

(** X20.  The last will is registered before [main] connects.  [main]
    registers the will "offline", retained, on "<mqtt_base_topic>/status"
    exactly when the file holds the server, the port, the discovery prefix
    and the base topic, whether or not the broker then accepts the
    connection; it has connected exactly when the file holds the four and
    the broker accepts.  So it never connects without a will. *)
Theorem will_registered_before_connecting w file :
  (forall m,
     will (main w file) = Some m <->
     exists config server port ha_prefix base_topic,
       file = Some config /\
       config !! "mqtt_server" = Some server /\
       config !! "mqtt_port" = Some port /\
       config !! "ha_discover_prefix" = Some ha_prefix /\
       config !! "mqtt_base_topic" = Some base_topic /\
       m = {| topic := str base_topic ++ "/status"; payload := VStr "offline";
              retain := true |}) /\
  (forall server port,
     connection (main w file) = Some (server, port) <->
     exists config ha_prefix base_topic,
       file = Some config /\
       config !! "mqtt_server" = Some server /\
       config !! "mqtt_port" = Some port /\
       config !! "ha_discover_prefix" = Some ha_prefix /\
       config !! "mqtt_base_topic" = Some base_topic /\
       reachable w server port = true).
Proof.
  destruct (main_will_connection w file) as [-> ->].
  destruct file as [config |].
  2: { split; intros; (split; [discriminate |]).
       - intros (? & ? & ? & ? & ? & ? & _). discriminate.
       - intros (? & ? & ? & ? & _). discriminate. }
  pose proof (try_block_will_connection w config) as H.
  destruct (config !! "mqtt_server") as [server |] eqn:Hs,
      (config !! "mqtt_port") as [port |] eqn:Hp,
      (config !! "ha_discover_prefix") as [ha_prefix |] eqn:Hh,
      (config !! "mqtt_base_topic") as [base_topic |] eqn:Hb;
    destruct H as [-> ->].
  1: { split.
       - intros m. split.
         + intros Hm. injection Hm as <-.
           exists config, server, port, ha_prefix, base_topic. auto 10.
         + intros (c & s & p & h & b & Hc & Hs' & Hp' & Hh' & Hb' & ->).
           injection Hc as <-. congruence.
       - intros server' port'. split.
         + destruct (reachable w server port) eqn:Hr; [| discriminate].
           intros Hc. injection Hc as <- <-.
           exists config, ha_prefix, base_topic. auto 10.
         + intros (c & h & b & Hc & Hs' & Hp' & _ & _ & Hr).
           injection Hc as <-.
           assert (server' = server) as -> by congruence.
           assert (port' = port) as -> by congruence.
           rewrite Hr. reflexivity. }
  all: split; intros; (split; [discriminate |]).
  all: try (intros (c & s & p & h & b & Hc & Hs' & Hp' & Hh' & Hb' & _);
            injection Hc as <-; congruence).
  all: intros (c & h & b & Hc & Hs' & Hp' & Hh' & Hb' & _);
    injection Hc as <-; congruence.
Qed.

(** X21.  On a host without temperature sensors and with a complete
    configuration, a first wake-up at which [time.time()] returns what it
    returned at the start ends the daemon: [main] raises the exception of
    the Decimal division, and writes the file back as it was. *)
Theorem stalled_clock_ends_daemon w config server port ha_prefix base_topic period h rest :
  has_sensors_temperatures (boot w) = false ->
  config !! "mqtt_server" = Some server ->
  config !! "mqtt_port" = Some port ->
  config !! "ha_discover_prefix" = Some ha_prefix ->
  config !! "mqtt_base_topic" = Some base_topic ->
  config !! "period" = Some (CInt period) ->
  reachable w server port = true ->
  wakeups w = h :: rest ->
  (time_time h == time_time (boot w))%Q ->
  exists e,
    (e = DivisionByZero \/ e = InvalidOperation) /\
    outcome (main w (Some config)) = Raised (PyExn e) /\
    file_after (main w (Some config)) = Some config.
Proof.
  intros Hsens Hs Hp Hh Hb Hper Hreach Hwake Htime.
  assert (Hprog : exists e, (e = DivisionByZero \/ e = InvalidOperation) /\
                    try_progress (try_block w (Some config)) = Failed (PyExn e)).
  { unfold try_block.
    rewrite (load_properties_plain _ Hsens), Hs, Hp, Hh, Hb, Hreach, Hper, Hwake.
    unfold bind at 1.
    destruct (tick_fixed_cases period (str base_topic) (initial_state (boot w)))
      as [[[Hst | Hst] _] | (_ & _ & st1 & -> & Hup & Hhost & Hqueue)];
      [exfalso; exact (not_stalled_initial _ _ Hst)
      | exfalso; exact (not_stalled_initial _ _ Hst) |].
    cbn [run]. rewrite Hqueue. cbn [queue initial_state app]. unfold bind at 1.
    assert (Hstalled : clock_stalled "upload" (with_host h (with_queue [] st1))).
    { eexists _, _. split; [exact Hup |]. cbn [host initial_state with_host].
      symmetry. exact Htime. }
    destruct (tick_fixed_cases period (str base_topic) (with_host h (with_queue [] st1)))
      as [[_ (e & st2 & Hk & ->)] | (Hns & _)].
    - exists e. split; [exact Hk | reflexivity].
    - contradiction. }
  destruct Hprog as (e & Hk & Hprog). exists e. split; [exact Hk |].
  unfold main. rewrite Hprog, try_config_file.
  destruct Hk as [-> | ->]; split; reflexivity.
Qed.

Lemma stalled_clock_ends_daemon_witness :
  exists e,
    (e = DivisionByZero \/ e = InvalidOperation) /\
    outcome (main example_world (Some example_config)) = Raised (PyExn e) /\
    file_after (main example_world (Some example_config)) = Some example_config.
Proof.
  apply (stalled_clock_ends_daemon example_world example_config
           (CStr "broker.lan") (CInt 8883) (CStr "homeassistant")
           (CStr "home/media-box") 30 example_host_plain_later []);
    reflexivity.
Defined.

(** X22.  From an empty directory it takes three starts to get a value
    published, on a host without temperature sensors whose broker is
    reachable.  The first start writes the four connection settings to the
    file and returns without connecting.  The second connects, finds no
    "period" in the file, adds the period of the command line and returns;
    its main thread has published nothing.  The third publishes the value
    of every metric of the registry, in the registry's order. *)
Theorem three_starts w :
  reachable w (CStr (arg_mqtt_server (argv w))) (CInt (arg_mqtt_port (argv w))) = true ->
  has_sensors_temperatures (boot w) = false ->
  let first := main w None in
  let second := main w (file_after first) in
  let third := main w (file_after second) in
  (outcome first = Returned /\ connection first = None /\ published (final first) = [] /\
   file_after first = Some (default_config (argv w))) /\
  (outcome second = Returned /\ published (final second) = [] /\
   connection second =
     Some (CStr (arg_mqtt_server (argv w)), CInt (arg_mqtt_port (argv w))) /\
   file_after second =
     Some (<["period" := CInt (arg_period (argv w))]> (default_config (argv w)))) /\
  exists msgs more,
    published (final third) = (msgs ++ more)%list /\
    map topic msgs =
      map (MQTT_STATE_TOPIC (arg_mqtt_base_topic (argv w))) (Dict.keys fixed_properties).
Proof.
  intros Hreach Hsens. cbn zeta. rewrite main_without_file. cbn [file_after].
  destruct (main_without_period w Hreach) as (Ho2 & Hp2 & Hc2 & Hf2).
  split; [repeat split |]. split; [repeat split; assumption |].
  rewrite Hf2, main_final. unfold try_block.
  rewrite (load_properties_plain _ Hsens).
  set (config := <["period" := CInt (arg_period (argv w))]> (default_config (argv w))).
  change (config !! "mqtt_server") with (Some (CStr (arg_mqtt_server (argv w)))).
  change (config !! "mqtt_port") with (Some (CInt (arg_mqtt_port (argv w)))).
  change (config !! "ha_discover_prefix")
    with (Some (CStr (arg_ha_discover_prefix (argv w)))).
  change (config !! "mqtt_base_topic")
    with (Some (CStr (arg_mqtt_base_topic (argv w)))).
  change (config !! "period") with (Some (CInt (arg_period (argv w)))).
  cbn iota. rewrite Hreach. cbn [str]. unfold bind at 1.
  destruct (tick_fixed_cases (arg_period (argv w)) (arg_mqtt_base_topic (argv w))
              (initial_state (boot w)))
    as [[[Hst | Hst] _] | (_ & _ & st1 & Hstatus & _)];
    [exfalso; exact (not_stalled_initial _ _ Hst)
    | exfalso; exact (not_stalled_initial _ _ Hst) |].
  rewrite Hstatus.
  destruct (status_cases _ _ _ _ _ _ _ _ (load_properties_plain _ Hsens) Hstatus)
    as (msgs & done & rest0 & Hks & Hpub & Htopics & _ & _ & _ & -> & _).
  rewrite app_nil_r in Hks. rewrite <- Hks in Htopics.
  destruct (run_appends fixed_properties (arg_period (argv w))
              (arg_mqtt_base_topic (argv w)) _ _ (wakeups w) st1
              (load_properties_plain _ Hsens)) as [more Hmore].
  exists msgs, more. split; [| exact Htopics].
  cbn [published initial_state app] in Hpub. rewrite Hpub in Hmore.
  destruct (run (wakeups w) fixed_properties _ _ st1) as [[[] | e] st2];
    cbn [snd] in Hmore; exact Hmore.
Qed.

Lemma three_starts_witness :
  let first := main example_world None in
  let second := main example_world (file_after first) in
  let third := main example_world (file_after second) in
  (outcome first = Returned /\ connection first = None /\ published (final first) = [] /\
   file_after first = Some (default_config (argv example_world))) /\
  (outcome second = Returned /\ published (final second) = [] /\
   connection second =
     Some (CStr (arg_mqtt_server (argv example_world)),
           CInt (arg_mqtt_port (argv example_world))) /\
   file_after second =
     Some (<["period" := CInt (arg_period (argv example_world))]>
             (default_config (argv example_world)))) /\
  exists msgs more,
    published (final third) = (msgs ++ more)%list /\
    map topic msgs =
      map (MQTT_STATE_TOPIC (arg_mqtt_base_topic (argv example_world)))
        (Dict.keys fixed_properties).
Proof.
  apply (three_starts example_world); reflexivity.
Defined.
